(** * The rule execution engine of [app.py]

    A shallow embedding of [SearchRule], of
    [EnhancedDJESearcher.search_with_params], [execute_rules] and
    [remove_duplicates], and the properties of the engine that the
    specification states about them.

    Conventions of the embedding.
    - A Python value that the engine inspects (a query parameter, the
      [hash], [id] and [numeroprocessocommascara] fields of a publication)
      is a JSON scalar: [None], a boolean, an integer or a string.  Floats
      and nested arrays/objects are not represented.
    - A [dict] is a [gmap string pyval]; a Python [set] is a [gset] of values
      normalised so that Python's [True == 1] and [False == 0] hold.
    - The network is a script: the list of what each successive
      [requests.get] call does.  Every effect the code performs ([requests.get],
      [time.sleep], [st.error], the progress callback) is recorded in a log.
      A run that needs more replies than the script holds is [Blocked]: the
      [while True] loop is still waiting for the network.
    - The elements of a page are JSON objects.  Module [Raw] repeats the
      engine on pages whose elements may be scalars as well; there
      [execute_rules] can raise, and on pages of objects the two engines
      agree ([raw_execute_rules]). *)

From stdpp Require Import gmap strings list fin_maps pretty sorting.
From Stdlib Require Import QArith.

Local Open Scope Z_scope.

(* [set_solver] clears hypotheses that an earlier step already removed. *)
#[local] Set Warnings "-clear-no-such-hyp".

(** ** Python values *)

Inductive pyval : Type :=
| PyNone
| PyBool (b : bool)
| PyInt (n : Z)
| PyStr (s : string).

#[global] Instance pyval_eq_dec : EqDecision pyval.
Proof. solve_decision. Defined.

#[global] Instance pyval_inhabited : Inhabited pyval := populate PyNone.

Definition pyval_enc (v : pyval) : unit + bool + Z + string :=
  match v with
  | PyNone => inl (inl (inl tt))
  | PyBool b => inl (inl (inr b))
  | PyInt n => inl (inr n)
  | PyStr s => inr s
  end.

Definition pyval_dec (x : unit + bool + Z + string) : pyval :=
  match x with
  | inl (inl (inl _)) => PyNone
  | inl (inl (inr b)) => PyBool b
  | inl (inr n) => PyInt n
  | inr s => PyStr s
  end.

#[global] Instance pyval_countable : Countable pyval :=
  inj_countable' pyval_enc pyval_dec
    (λ v, match v with
          | PyNone | PyBool _ | PyInt _ | PyStr _ => eq_refl
          end).

(** [bool(v)]: the truth value Python gives a scalar. *)
Definition truthy (v : pyval) : bool :=
  match v with
  | PyNone => false
  | PyBool b => b
  | PyInt n => negb (n =? 0)
  | PyStr s => negb (String.eqb s "")
  end.

(** [str(v)], which is also what an f-string field [{v}] prints. *)
Definition py_str (v : pyval) : string :=
  match v with
  | PyNone => "None"
  | PyBool true => "True"
  | PyBool false => "False"
  | PyInt n => pretty n
  | PyStr s => s
  end.

(** Representative of a value under Python's [==] (and [hash]) on scalars:
    booleans are the integers 0 and 1. *)
Definition py_norm (v : pyval) : pyval :=
  match v with
  | PyBool b => PyInt (Z.b2z b)
  | _ => v
  end.

(** A Python [set] of scalars. *)
Abbreviation pyset := (gset pyval).

(** [{ v for v in l }] *)
Definition pyset_of (l : list pyval) : pyset := list_to_set (py_norm <$> l).

(** [v in s] *)
Definition py_in (v : pyval) (s : pyset) : bool := bool_decide (py_norm v ∈ s).

(** [s.add(v)] *)
Definition py_add (v : pyval) (s : pyset) : pyset := {[ py_norm v ]} ∪ s.

(** [d.get(k, dflt)] *)
Definition get (d : gmap string pyval) (k : string) (dflt : pyval) : pyval :=
  default dflt (d !! k).

(** [v + 1] for the page counter; the entry it is applied to is always the
    integer that [search_with_params] stored. *)
Definition py_succ (v : pyval) : pyval :=
  match v with
  | PyInt n => PyInt (n + 1)
  | PyBool b => PyInt (Z.b2z b + 1)
  | _ => v
  end.

(** ** Rules *)

Inductive RuleType : Type := INCLUDE | EXCLUDE.

Inductive RuleOperator : Type := AND | OR.

Record SearchRule : Type := {
  name : string;
  rule_type : RuleType;
  operator : RuleOperator;
  enabled : bool;
  parameters : gmap string pyval
}.

(** [{k: v for k, v in self.parameters.items() if v is not None and v != ""}] *)
Definition __post_init__ (self : SearchRule) : SearchRule :=
  {| name := name self;
     rule_type := rule_type self;
     operator := operator self;
     enabled := enabled self;
     parameters :=
       filter (λ kv : string * pyval, kv.2 ≠ PyNone ∧ kv.2 ≠ PyStr "")
              (parameters self) |}.

(** The constructor the [@dataclass] decorator generates: it stores the
    fields and then calls [__post_init__]. *)
Definition SearchRule_init (name : string) (rule_type : RuleType)
    (operator : RuleOperator) (enabled : bool)
    (parameters : gmap string pyval) : SearchRule :=
  __post_init__ (Build_SearchRule name rule_type operator enabled parameters).

(** ** Publications, the network and the log of effects *)

(** One element of the [items] array of a response. *)
Abbreviation item := (gmap string pyval).

(** What [response.json()] does: it raises on a malformed body, or returns
    the decoded object, of which the code reads the [items] entry only
    ([None] when the entry is missing or [null]). *)
Inductive json_result : Type :=
| JsonError (e : string)
| JsonObject (items : option (list item)).

(** What one call of [requests.get] does: it raises (timeout, connection
    error; [e] is [str] of the exception) or returns a response. *)
Inductive reply : Type :=
| RequestException (e : string)
| Response (status_code : Z) (json : json_result).

Inductive event : Type :=
| progress_callback_call (message : string)
| requests_get (url : string) (params : gmap string pyval) (timeout : Z)
| time_sleep (seconds : Q)
| st_error (message : string).

Inductive outcome (A : Type) : Type :=
| Returned (a : A) (rest : list reply)
| Blocked.
Arguments Returned {A} a rest.
Arguments Blocked {A}.

(** A computation reads replies off the script and appends to the log. *)
Definition io (A : Type) : Type := list reply → list event * outcome A.

#[global] Instance io_ret : MRet io := λ A a script, ([], Returned a script).

#[global] Instance io_bind : MBind io := λ A B f m script,
  match m script with
  | (log, Blocked) => (log, Blocked)
  | (log, Returned a rest) =>
      let '(log', o) := f a rest in (log ++ log', o)
  end.

Definition emit (log : list event) : io unit :=
  λ script, (log, Returned tt script).

(** [if progress_callback: progress_callback(message)] *)
Definition report (progress_callback : bool) (message : string) : list event :=
  if progress_callback then [progress_callback_call message] else [].

(** ** EnhancedDJESearcher *)

Definition base_url : string :=
  "https://comunicaapi.pje.jus.br/api/v1/comunicacao".

(** The local variables of [search_with_params] that the loop updates. *)
Record loop_state : Type := {
  publications : list item;
  search_params : gmap string pyval
}.

Inductive control : Type := Break | Continue.

(** The body of the [try:] block for one reply; [inl e] is an exception
    whose [str] is [e]. *)
Definition try_block (progress_callback : bool) (rule_name : pyval)
    (st : loop_state) (r : reply)
    : string + (control * loop_state * list event) :=
  match r with
  | RequestException e => inl e
  | Response status_code json =>
      if status_code =? 200 then
        match json with
        | JsonError e => inl e
        | JsonObject dados_items =>
            match default [] dados_items with
            | [] => inr (Break, st, [])
            | items =>
                inr (Continue,
                     {| publications := publications st ++ items;
                        search_params :=
                          alter py_succ "pagina" (search_params st) |},
                     [time_sleep (1 # 2)])
            end
        end
      else if status_code =? 429 then
        inr (Continue, st,
             report progress_callback "Rate limit atingido. Aguardando..."
               ++ [time_sleep 10])
      else
        inr (Break, st,
             [st_error ("Erro na busca " +:+ py_str rule_name +:+ ": "
                          +:+ pretty status_code)])
  end.

(** [progress_callback(f"Executando {rule_name} - Página {search_params['pagina']}")] *)
Definition announce (progress_callback : bool) (rule_name : pyval)
    (st : loop_state) : list event :=
  report progress_callback
    ("Executando " +:+ py_str rule_name +:+ " - Página "
       +:+ py_str (search_params st !!! "pagina")).

(** [requests.get(self.base_url, params=search_params, timeout=30)] *)
Definition request (st : loop_state) : event :=
  requests_get base_url (search_params st) 30.

(** One turn of [while True:]. *)
Definition iteration (progress_callback : bool) (rule_name : pyval)
    (st : loop_state) (r : reply) : control * loop_state * list event :=
  match try_block progress_callback rule_name st r with
  | inr (c, st', log) =>
      (c, st', announce progress_callback rule_name st ++ request st :: log)
  | inl e =>
      (Break, st,
       announce progress_callback rule_name st
         ++ [request st;
             st_error ("Erro na requisição " +:+ py_str rule_name
                         +:+ ": " +:+ e)])
  end.

(** [while True: ...]; on an exhausted script the loop has announced and
    sent its request and waits for the reply. *)
Fixpoint pagination (progress_callback : bool) (rule_name : pyval)
    (st : loop_state) (script : list reply)
    : list event * outcome (list item) :=
  match script with
  | [] => (announce progress_callback rule_name st ++ [request st], Blocked)
  | r :: script' =>
      match iteration progress_callback rule_name st r with
      | (Break, st', log) => (log, Returned (publications st') script')
      | (Continue, st', log) =>
          let '(log', o) := pagination progress_callback rule_name st' script'
          in (log ++ log', o)
      end
  end.

Definition search_with_params (params : gmap string pyval)
    (progress_callback : bool) : io (list item) :=
  let st := {| publications := [];
               search_params :=
                 <["pagina" := PyInt 1]>
                   (<["itensPorPagina" := PyInt 50]> params) |} in
  let rule_name := get params "_rule_name" (PyStr "Busca") in
  pagination progress_callback rule_name st.

(** [pub.get('hash', pub.get('id', ''))] *)
Definition hash_or_id (pub : item) : pyval :=
  get pub "hash" (get pub "id" (PyStr "")).

(** One turn of [for pub in publications:] in [remove_duplicates]. *)
Definition remove_duplicates_step (st : pyset * list item) (pub : item)
    : pyset * list item :=
  let '(seen_hashes, unique_publications) := st in
  let pub_hash := get pub "hash" PyNone in
  if truthy pub_hash && negb (py_in pub_hash seen_hashes) then
    (py_add pub_hash seen_hashes, unique_publications ++ [pub])
  else if negb (truthy pub_hash) then
    let unique_id :=
      PyStr (py_str (get pub "id" (PyStr "")) +:+ "_"
               +:+ py_str (get pub "numeroprocessocommascara" (PyStr ""))) in
    if negb (py_in unique_id seen_hashes) then
      (py_add unique_id seen_hashes, unique_publications ++ [pub])
    else st
  else st.

Definition remove_duplicates (publications : list item) : list item :=
  (fold_left remove_duplicates_step publications (∅, [])).2.

(** The [if rule.rule_type == ...] cascade that folds one rule's
    publications into the two accumulators. *)
Definition accumulate (rule : SearchRule) (publications : list item)
    (acc : list item * list item) : list item * list item :=
  let '(include_publications, exclude_publications) := acc in
  match rule_type rule with
  | INCLUDE =>
      match operator rule with
      | OR => (include_publications ++ publications, exclude_publications)
      | AND =>
          match include_publications with
          | [] => (publications, exclude_publications)
          | _ =>
              let include_hashes :=
                pyset_of (hash_or_id <$> include_publications) in
              let publications_hashes :=
                pyset_of (hash_or_id <$> publications) in
              let common_hashes := include_hashes ∩ publications_hashes in
              (filter (λ pub, py_in (hash_or_id pub) common_hashes = true)
                      include_publications,
               exclude_publications)
          end
      end
  | EXCLUDE => (include_publications, exclude_publications ++ publications)
  end.

(** [rule_params = rule.parameters.copy(); rule_params['_rule_name'] = rule.name] *)
Definition rule_params (rule : SearchRule) : gmap string pyval :=
  <["_rule_name" := PyStr (name rule)]> (parameters rule).

(** [for rule in rules: ...] *)
Fixpoint rules_loop (progress_callback : bool) (rules : list SearchRule)
    (acc : list item * list item) : io (list item * list item) :=
  match rules with
  | [] => mret acc
  | rule :: rules' =>
      if negb (enabled rule) then rules_loop progress_callback rules' acc
      else
        emit (report progress_callback ("Executando regra: " +:+ name rule));;
        publications ← search_with_params (rule_params rule) progress_callback;
        rules_loop progress_callback rules'
          (accumulate rule publications acc)
  end.

(** The part of [execute_rules] after the loop. *)
Definition finish (progress_callback : bool) (acc : list item * list item)
    : list event * list item :=
  let '(include_publications, exclude_publications) := acc in
  let include_publications := remove_duplicates include_publications in
  let log := report progress_callback "Removendo duplicatas das inclusões..." in
  match exclude_publications with
  | [] => (log, include_publications)
  | _ =>
      let exclude_hashes := pyset_of (hash_or_id <$> exclude_publications) in
      (log ++ report progress_callback "Aplicando exclusões...",
       filter (λ pub, py_in (hash_or_id pub) exclude_hashes = false)
              include_publications)
  end.

Definition execute_rules (rules : list SearchRule) (progress_callback : bool)
    : io (list item) :=
  acc ← rules_loop progress_callback rules ([], []);
  let '(log, final_publications) := finish progress_callback acc in
  emit log;;
  mret final_publications.

(** ** Keys *)

(** The value [remove_duplicates] records in [seen_hashes] for [pub]: the
    hash when it is truthy, otherwise the string [f"{id}_{case number}"]. *)
Definition dedup_key (pub : item) : pyval :=
  let pub_hash := get pub "hash" PyNone in
  if truthy pub_hash then py_norm pub_hash
  else PyStr (py_str (get pub "id" (PyStr "")) +:+ "_"
                +:+ py_str (get pub "numeroprocessocommascara" (PyStr ""))).

(** The element [execute_rules] puts in its hash sets for [pub]. *)
Definition match_key (pub : item) : pyval := py_norm (hash_or_id pub).

(** Stable deduplication by [dedup_key], given the keys already seen. *)
Fixpoint first_occurrences (seen : pyset) (l : list item) : list item :=
  match l with
  | [] => []
  | pub :: l' =>
      if decide (dedup_key pub ∈ seen) then first_occurrences seen l'
      else pub :: first_occurrences ({[ dedup_key pub ]} ∪ seen) l'
  end.

(** ** Scripts and logs *)

(** A successful response carrying the page [items]. *)
Definition ok_page (items : list item) : reply :=
  Response 200 (JsonObject (Some items)).

(** The dictionary [search_params] while page [n] is being fetched. *)
Definition page_params (params : gmap string pyval) (n : Z)
    : gmap string pyval :=
  <["pagina" := PyInt n]> (<["itensPorPagina" := PyInt 50]> params).

(** The query parameters of the HTTP requests of a log, in order. *)
Definition requests_of (log : list event) : list (gmap string pyval) :=
  omap (λ e, match e with requests_get _ p _ => Some p | _ => None end) log.

(** The messages shown with [st.error], in order. *)
Definition errors_of (log : list event) : list string :=
  omap (λ e, match e with st_error m => Some m | _ => None end) log.

(** The replies that end the pagination of a rule with an error: an
    exception of [requests.get], a status other than 200 and 429, or a 200
    whose body [response.json()] cannot decode. *)
Definition is_failure (r : reply) : Prop :=
  match r with
  | RequestException _ => True
  | Response status_code (JsonError _) => status_code ≠ 429
  | Response status_code (JsonObject _) => status_code ≠ 200 ∧ status_code ≠ 429
  end.

(** [s] occurs inside [t]. *)
Definition contains (t s : string) : Prop := ∃ pre post, t = pre +:+ s +:+ post.

(** The log of fetching the non-empty pages [pages], the first of them
    being page [n]. *)
Fixpoint pages_log (progress_callback : bool) (rule_name : pyval)
    (params : gmap string pyval) (pubs : list item) (n : Z)
    (pages : list (list item)) : list event :=
  match pages with
  | [] => []
  | items :: pages' =>
      let st := {| publications := pubs;
                   search_params := page_params params n |} in
      announce progress_callback rule_name st
        ++ [request st; time_sleep (1 # 2)]
        ++ pages_log progress_callback rule_name params (pubs ++ items)
             (n + 1) pages'
  end.

(** The log of one rate-limited attempt. *)
Definition retry_log (progress_callback : bool) (rule_name : pyval)
    (st : loop_state) : list event :=
  announce progress_callback rule_name st
    ++ [request st]
    ++ report progress_callback "Rate limit atingido. Aguardando..."
    ++ [time_sleep 10].

(** [log] goes before the log of a run. *)
Definition after {A : Type} (log : list event)
    (run : list event * outcome A) : list event * outcome A :=
  (log ++ run.1, run.2).


(** ** The identity key in the words of the specification *)

(** The [hash] when it is present and non-empty, and otherwise the pair of
    the record id and the case number. *)
Definition spec_identity_key (pub : item)
    : pyval + option pyval * option pyval :=
  let pair := (pub !! "id", pub !! "numeroprocessocommascara") in
  match pub !! "hash" with
  | Some h => if truthy h then inl h else inr pair
  | None => inr pair
  end.

(** The element of [seen_hashes] that stands for an identity key. *)
Definition key_of_identity (k : pyval + option pyval * option pyval) : pyval :=
  match k with
  | inl h => py_norm h
  | inr (id, numero) =>
      PyStr (py_str (default (PyStr "") id) +:+ "_"
               +:+ py_str (default (PyStr "") numero))
  end.

(** The items of [include] that the specification's exclusion step keeps. *)
Definition spec_exclusion (include exclude : list item) : list item :=
  filter (λ pub, spec_identity_key pub ∉ spec_identity_key <$> exclude) include.

(** The specification's intersection of two result lists. *)
Definition spec_intersection (first second : list item) : list item :=
  filter (λ pub, spec_identity_key pub ∈ spec_identity_key <$> second) first.

(** ** Sample data *)

Definition pub_a : item := {[ "hash" := PyStr "a"; "id" := PyInt 10 ]}.
Definition pub_b : item := {[ "hash" := PyStr "b"; "id" := PyInt 11 ]}.
Definition pub_c : item := {[ "hash" := PyStr "c"; "id" := PyInt 12 ]}.

(** Publications without a hash; the first two share their id. *)
Definition pub_1x : item :=
  {[ "id" := PyInt 1; "numeroprocessocommascara" := PyStr "x" ]}.
Definition pub_1y : item :=
  {[ "id" := PyInt 1; "numeroprocessocommascara" := PyStr "y" ]}.
Definition pub_2z : item :=
  {[ "id" := PyInt 2; "numeroprocessocommascara" := PyStr "z" ]}.

(** A publication whose hash reads like an id and a case number. *)
Definition pub_h1x : item := {[ "hash" := PyStr "1_x" ]}.

(** [pub_1x] again, with another text. *)
Definition pub_1x' : item :=
  {[ "id" := PyInt 1; "numeroprocessocommascara" := PyStr "x";
     "texto" := PyStr "Intimacao" ]}.

Definition rule_or : SearchRule := SearchRule_init
  "OAB" INCLUDE OR true
  {[ "numeroOab" := PyStr "8773"; "ufOab" := PyStr "ES" ]}.
Definition rule_and : SearchRule := SearchRule_init
  "Parte" INCLUDE AND true {[ "nomeParte" := PyStr "Darwin" ]}.
Definition rule_and' : SearchRule := SearchRule_init
  "Tribunal" INCLUDE AND true {[ "siglaTribunal" := PyStr "TJES" ]}.
Definition rule_exclude : SearchRule := SearchRule_init
  "Itiel" EXCLUDE OR true {[ "numeroOab" := PyStr "14072" ]}.

(** A script for [rule_or] then [rule_exclude]: one page and the empty
    page for each. *)
Definition script_include_exclude : list reply :=
  [ok_page [pub_a; pub_b; pub_c]; ok_page []; ok_page [pub_b]; ok_page []].

(** A script for [rule_and] then [rule_and']. *)
Definition script_and_and : list reply :=
  [ok_page [pub_a; pub_b]; ok_page []; ok_page [pub_b; pub_c]; ok_page []].

Definition rule_or' : SearchRule := SearchRule_init
  "Advogado" INCLUDE OR true {[ "nomeAdvogado" := PyStr "Lacerda" ]}.

(** A script for [rule_or], [rule_or'] and [rule_exclude] in which the
    second rule gets one page and then a server error. *)
Definition script_failing : list reply :=
  [ok_page [pub_a; pub_b]; ok_page []] ++
  (ok_page <$> [[pub_c; pub_a]]) ++
  Response 500 (JsonObject None) :: [ok_page [pub_b]; ok_page []].

(** Publications whose hash is [null], with different ids and case
    numbers. *)
Definition pub_n1 : item :=
  {[ "hash" := PyNone; "id" := PyInt 1;
     "numeroprocessocommascara" := PyStr "x" ]}.
Definition pub_n2 : item :=
  {[ "hash" := PyNone; "id" := PyInt 2;
     "numeroprocessocommascara" := PyStr "y" ]}.

(** A script for three rules that fetch one publication each, all
    different. *)
Definition script_disjoint : list reply :=
  [ok_page [pub_a]; ok_page []; ok_page [pub_b]; ok_page [];
   ok_page [pub_c]; ok_page []].

(** ** The engine on pages whose elements need not be objects

    The body of a response is whatever the server sent.  The loop of
    [search_with_params] never looks inside an element of [items], so an
    element that is no JSON object is accumulated like any other.
    [execute_rules] and [remove_duplicates] call [pub.get] on the
    accumulated elements, which raises [AttributeError] on anything that is
    no dictionary, outside every [try:] of the class.  The module repeats
    the engine on such pages, with the exception as a third outcome. *)

Module Raw.

(** An element of [items]: a JSON object, or a scalar. *)
Inductive pyobj : Type :=
| Obj (d : item)
| NotObj (v : pyval).

(** [JsonError e]: [response.json()], or the [dados.get] and the
    [publications.extend] that follow it, raises an exception whose [str]
    is [e] (a body that is no JSON, or no JSON object, or whose [items] is
    a number).  [JsonObject items]: the array in the [items] entry. *)
Inductive json_result : Type :=
| JsonError (e : string)
| JsonObject (items : option (list pyobj)).

Inductive reply : Type :=
| RequestException (e : string)
| Response (status_code : Z) (json : json_result).

(** ['...' object has no attribute 'get'] *)
Inductive exn : Type := AttributeError.

Inductive outcome (A : Type) : Type :=
| Returned (a : A) (rest : list reply)
| Blocked
| Raised (e : exn).
Arguments Returned {A} a rest.
Arguments Blocked {A}.
Arguments Raised {A} e.

Definition io (A : Type) : Type := list reply → list event * outcome A.

#[global] Instance io_ret : MRet io := λ A a script, ([], Returned a script).

#[global] Instance io_bind : MBind io := λ A B f m script,
  match m script with
  | (log, Returned a rest) =>
      let '(log', o) := f a rest in (log ++ log', o)
  | (log, Blocked) => (log, Blocked)
  | (log, Raised e) => (log, Raised e)
  end.

Definition emit (log : list event) : io unit :=
  λ script, (log, Returned tt script).

Definition raise {A : Type} (e : exn) : io A := λ _, ([], Raised e).

Record loop_state : Type := {
  publications : list pyobj;
  search_params : gmap string pyval
}.

(** The body of the [try:] block for one reply. *)
Definition try_block (progress_callback : bool) (rule_name : pyval)
    (st : loop_state) (r : reply)
    : string + (control * loop_state * list event) :=
  match r with
  | RequestException e => inl e
  | Response status_code json =>
      if status_code =? 200 then
        match json with
        | JsonError e => inl e
        | JsonObject dados_items =>
            match default [] dados_items with
            | [] => inr (Break, st, [])
            | items =>
                inr (Continue,
                     {| publications := publications st ++ items;
                        search_params :=
                          alter py_succ "pagina" (search_params st) |},
                     [time_sleep (1 # 2)])
            end
        end
      else if status_code =? 429 then
        inr (Continue, st,
             report progress_callback "Rate limit atingido. Aguardando..."
               ++ [time_sleep 10])
      else
        inr (Break, st,
             [st_error ("Erro na busca " +:+ py_str rule_name +:+ ": "
                          +:+ pretty status_code)])
  end.

Definition announce (progress_callback : bool) (rule_name : pyval)
    (st : loop_state) : list event :=
  report progress_callback
    ("Executando " +:+ py_str rule_name +:+ " - Página "
       +:+ py_str (search_params st !!! "pagina")).

Definition request (st : loop_state) : event :=
  requests_get base_url (search_params st) 30.

(** One turn of [while True:]; [except Exception as e:] catches whatever
    the [try:] block raises. *)
Definition iteration (progress_callback : bool) (rule_name : pyval)
    (st : loop_state) (r : reply) : control * loop_state * list event :=
  match try_block progress_callback rule_name st r with
  | inr (c, st', log) =>
      (c, st', announce progress_callback rule_name st ++ request st :: log)
  | inl e =>
      (Break, st,
       announce progress_callback rule_name st
         ++ [request st;
             st_error ("Erro na requisição " +:+ py_str rule_name
                         +:+ ": " +:+ e)])
  end.

Fixpoint pagination (progress_callback : bool) (rule_name : pyval)
    (st : loop_state) (script : list reply)
    : list event * outcome (list pyobj) :=
  match script with
  | [] => (announce progress_callback rule_name st ++ [request st], Blocked)
  | r :: script' =>
      match iteration progress_callback rule_name st r with
      | (Break, st', log) => (log, Returned (publications st') script')
      | (Continue, st', log) =>
          let '(log', o) := pagination progress_callback rule_name st' script'
          in (log ++ log', o)
      end
  end.

Definition search_with_params (params : gmap string pyval)
    (progress_callback : bool) : io (list pyobj) :=
  let st := {| publications := [];
               search_params :=
                 <["pagina" := PyInt 1]>
                   (<["itensPorPagina" := PyInt 50]> params) |} in
  let rule_name := get params "_rule_name" (PyStr "Busca") in
  pagination progress_callback rule_name st.

(** The dictionaries a loop [for pub in l] calls [pub.get] on; [None] when
    an element is no dictionary and the call raises [AttributeError]. *)
Definition dicts (l : list pyobj) : option (list item) :=
  mapM (λ o, match o with Obj d => Some d | NotObj _ => None end) l.

(** The [if rule.rule_type == ...] cascade. *)
Definition accumulate (rule : SearchRule) (publications : list pyobj)
    (acc : list pyobj * list pyobj) : exn + list pyobj * list pyobj :=
  let '(include_publications, exclude_publications) := acc in
  match rule_type rule with
  | INCLUDE =>
      match operator rule with
      | OR => inr (include_publications ++ publications, exclude_publications)
      | AND =>
          match include_publications with
          | [] => inr (publications, exclude_publications)
          | _ =>
              match dicts include_publications, dicts publications with
              | Some include_dicts, Some publications_dicts =>
                  let include_hashes :=
                    pyset_of (hash_or_id <$> include_dicts) in
                  let publications_hashes :=
                    pyset_of (hash_or_id <$> publications_dicts) in
                  let common_hashes := include_hashes ∩ publications_hashes in
                  inr (Obj <$> filter (λ pub, py_in (hash_or_id pub)
                                                common_hashes = true)
                                      include_dicts,
                       exclude_publications)
              | _, _ => inl AttributeError
              end
          end
      end
  | EXCLUDE => inr (include_publications, exclude_publications ++ publications)
  end.

(** [for rule in rules: ...] *)
Fixpoint rules_loop (progress_callback : bool) (rules : list SearchRule)
    (acc : list pyobj * list pyobj) : io (list pyobj * list pyobj) :=
  match rules with
  | [] => mret acc
  | rule :: rules' =>
      if negb (enabled rule) then rules_loop progress_callback rules' acc
      else
        emit (report progress_callback ("Executando regra: " +:+ name rule));;
        publications ← search_with_params (rule_params rule) progress_callback;
        match accumulate rule publications acc with
        | inl e => raise e
        | inr acc' => rules_loop progress_callback rules' acc'
        end
  end.

Definition execute_rules (rules : list SearchRule) (progress_callback : bool)
    : io (list pyobj) :=
  acc ← rules_loop progress_callback rules ([], []);
  let '(include_publications, exclude_publications) := acc in
  emit (report progress_callback "Removendo duplicatas das inclusões...");;
  match dicts include_publications with
  | None => raise AttributeError
  | Some include_dicts =>
      let include_publications := remove_duplicates include_dicts in
      match exclude_publications with
      | [] => mret (Obj <$> include_publications)
      | _ =>
          emit (report progress_callback "Aplicando exclusões...");;
          match dicts exclude_publications with
          | None => raise AttributeError
          | Some exclude_dicts =>
              let exclude_hashes :=
                pyset_of (hash_or_id <$> exclude_dicts) in
              mret (Obj <$> filter (λ pub, py_in (hash_or_id pub)
                                             exclude_hashes = false)
                                   include_publications)
          end
      end
  end.

End Raw.

(** A page of objects, a reply and an outcome of the engine on objects, as
    the engine on arbitrary pages sees them. *)
Definition raw_json (json : json_result) : Raw.json_result :=
  match json with
  | JsonError e => Raw.JsonError e
  | JsonObject items => Raw.JsonObject ((λ items : list item, Raw.Obj <$> items) <$> items)
  end.

Definition raw_reply (r : reply) : Raw.reply :=
  match r with
  | RequestException e => Raw.RequestException e
  | Response status_code json => Raw.Response status_code (raw_json json)
  end.

Definition raw_state (st : loop_state) : Raw.loop_state :=
  {| Raw.publications := Raw.Obj <$> publications st;
     Raw.search_params := search_params st |}.

Definition raw_outcome {A B : Type} (f : A → B) (o : outcome A)
    : Raw.outcome B :=
  match o with
  | Returned a rest => Raw.Returned (f a) (raw_reply <$> rest)
  | Blocked => Raw.Blocked
  end.

Definition raw_acc (acc : list item * list item)
    : list Raw.pyobj * list Raw.pyobj :=
  (Raw.Obj <$> acc.1, Raw.Obj <$> acc.2).

(** The elements the loop of [search_with_params] appends for a reply:
    those of a 200 whose body decodes, none for any other reply. *)
Definition raw_fetched (r : Raw.reply) : list Raw.pyobj :=
  match r with
  | Raw.Response status_code (Raw.JsonObject items) =>
      if status_code =? 200 then default [] items else []
  | _ => []
  end.

(** Every element of [l] is a dictionary. *)
Definition objects (l : list Raw.pyobj) : Prop := is_Some (Raw.dicts l).

(** A page that holds a string among its elements. *)
Definition page_with_a_string : Raw.reply :=
  Raw.Response 200
    (Raw.JsonObject (Some [Raw.Obj pub_a; Raw.NotObj (PyStr "b")])).

(** ** The replies, as the loop of [search_with_params] tells them apart *)

(** A 200 whose [items] list is not empty: the loop appends it, advances
    the page counter, sleeps 0.5 and goes on. *)
Definition is_page (r : reply) : bool :=
  match r with
  | Response status_code (JsonObject items) =>
      (status_code =? 200)
        && match default [] items with [] => false | _ => true end
  | _ => false
  end.

(** A 429: the loop sleeps 10 and goes on. *)
Definition is_retry (r : reply) : bool :=
  match r with
  | Response status_code _ => status_code =? 429
  | RequestException _ => false
  end.

(** The replies after which the loop takes another turn. *)
Definition continues (r : reply) : bool := is_page r || is_retry r.

(** What [publications.extend(items)] adds on reply [r]. *)
Definition fetched (r : reply) : list item :=
  match r with
  | Response status_code (JsonObject items) =>
      if status_code =? 200 then default [] items else []
  | _ => []
  end.

(** The argument of the [time.sleep] that follows a reply the loop goes on
    from. *)
Definition sleep_after (r : reply) : Q := if is_page r then 1 # 2 else 10.

(** The [st.error] messages a reply that ends the loop brings about. *)
Definition error_shown (rule_name : pyval) (r : reply) : list string :=
  match r with
  | RequestException e =>
      ["Erro na requisição " +:+ py_str rule_name +:+ ": " +:+ e]
  | Response status_code json =>
      if status_code =? 200 then
        match json with
        | JsonError e =>
            ["Erro na requisição " +:+ py_str rule_name +:+ ": " +:+ e]
        | JsonObject _ => []
        end
      else
        ["Erro na busca " +:+ py_str rule_name +:+ ": " +:+ pretty status_code]
  end.

(** The [time.sleep] calls of a log, in order. *)
Definition sleeps_of (log : list event) : list Q :=
  omap (λ e, match e with time_sleep q => Some q | _ => None end) log.

Definition is_progress (e : event) : bool :=
  match e with progress_callback_call _ => true | _ => false end.

(** A log without its calls of the progress callback. *)
Definition effects (log : list event) : list event :=
  filter (λ e, is_progress e = false) log.

(** ** What the rules of a run fetch *)

#[global] Instance RuleType_eq_dec : EqDecision RuleType.
Proof. solve_decision. Defined.

#[global] Instance RuleOperator_eq_dec : EqDecision RuleOperator.
Proof. solve_decision. Defined.

(** [fetches cb rules script fetched rest]: run in this order on [script],
    the enabled rules of [rules] return the lists paired with them in
    [fetched], and leave [rest] unread. *)
Inductive fetches (progress_callback : bool)
    : list SearchRule → list reply → list (SearchRule * list item)
      → list reply → Prop :=
| fetches_nil script : fetches progress_callback [] script [] script
| fetches_disabled rule rules script fetched rest :
    enabled rule = false →
    fetches progress_callback rules script fetched rest →
    fetches progress_callback (rule :: rules) script fetched rest
| fetches_enabled rule rules script log pubs script' fetched rest :
    enabled rule = true →
    search_with_params (rule_params rule) progress_callback script
      = (log, Returned pubs script') →
    fetches progress_callback rules script' fetched rest →
    fetches progress_callback (rule :: rules) script
      ((rule, pubs) :: fetched) rest.

(** The accumulators after the rules have fetched [fetched]. *)
Definition fuse (fetched : list (SearchRule * list item))
    (acc : list item * list item) : list item * list item :=
  fold_left (λ acc rp, accumulate rp.1 rp.2 acc) fetched acc.

(** A publication with nothing to tell it by: no truthy hash, no id, no
    case number. *)
Definition unidentified (pub : item) : Prop :=
  truthy (get pub "hash" PyNone) = false
  ∧ pub !! "id" = None ∧ pub !! "numeroprocessocommascara" = None.

(** The values [__post_init__] keeps. *)
Definition kept (kv : string * pyval) : Prop :=
  kv.2 ≠ PyNone ∧ kv.2 ≠ PyStr "".

(** ** create_rule_form *)

(** The values the widgets of the form return. *)
Record form_values (date : Type) : Type := {
  rule_name : string;
  form_rule_type : RuleType;
  rule_operator : RuleOperator;
  rule_enabled : bool;
  numero_oab : string;
  uf_oab : string;
  nome_advogado : string;
  nome_parte : string;
  numero_processo : string;
  numero_comunicacao : Z;
  sigla_tribunal : string;
  orgao_id : Z;
  data_inicio : option date;
  data_fim : option date
}.
Arguments rule_name {date} _.
Arguments form_rule_type {date} _.
Arguments rule_operator {date} _.
Arguments rule_enabled {date} _.
Arguments numero_oab {date} _.
Arguments uf_oab {date} _.
Arguments nome_advogado {date} _.
Arguments nome_parte {date} _.
Arguments numero_processo {date} _.
Arguments numero_comunicacao {date} _.
Arguments sigla_tribunal {date} _.
Arguments orgao_id {date} _.
Arguments data_inicio {date} _.
Arguments data_fim {date} _.

Section create_rule_form.
(** [datetime.date] and its [strftime('%Y-%m-%d')] are the library's. *)
Variable date : Type.
Variable strftime : date → string.

(** [if value: parameters[key] = value] for a text value. *)
Definition set_text (key value : string) (parameters : gmap string pyval)
    : gmap string pyval :=
  if String.eqb value "" then parameters
  else <[key := PyStr value]> parameters.

(** [if value > 0: parameters[key] = value] *)
Definition set_number (key : string) (value : Z)
    (parameters : gmap string pyval) : gmap string pyval :=
  if 0 <? value then <[key := PyInt value]> parameters else parameters.

(** [if value: parameters[key] = value.strftime('%Y-%m-%d')] *)
Definition set_date (key : string) (value : option date)
    (parameters : gmap string pyval) : gmap string pyval :=
  match value with
  | Some d => <[key := PyStr (strftime d)]> parameters
  | None => parameters
  end.

(** The dictionary [parameters] that the form fills, entry by entry. *)
Definition form_parameters (w : form_values date) : gmap string pyval :=
  set_date "dataDisponibilizacaoFim" (data_fim w)
    (set_date "dataDisponibilizacaoInicio" (data_inicio w)
       (set_number "orgaoId" (orgao_id w)
          (set_text "siglaTribunal" (sigla_tribunal w)
             (set_number "numeroComunicacao" (numero_comunicacao w)
                (set_text "numeroProcesso" (numero_processo w)
                   (set_text "nomeParte" (nome_parte w)
                      (set_text "nomeAdvogado" (nome_advogado w)
                         (set_text "ufOab" (uf_oab w)
                            (set_text "numeroOab" (numero_oab w) ∅))))))))).

(** What [create_rule_form] returns once the widgets have their values. *)
Definition create_rule_form (w : form_values date) : option SearchRule :=
  let parameters := form_parameters w in
  if decide (parameters = ∅) then None
  else
    Some (SearchRule_init (rule_name w) (form_rule_type w)
            (match form_rule_type w with
             | INCLUDE => rule_operator w
             | EXCLUDE => OR
             end)
            (rule_enabled w) parameters).
End create_rule_form.
Arguments set_date {date} strftime key value parameters.
Arguments form_parameters {date} strftime w.
Arguments create_rule_form {date} strftime w.

(** A calendar date and a rendering of it, to try the form on. *)
Definition sample_date : Type := Z * Z * Z.
Definition sample_strftime (d : sample_date) : string :=
  pretty d.1.1 +:+ "-" +:+ pretty d.1.2 +:+ "-" +:+ pretty d.2.

Definition sample_form : form_values sample_date :=
  {| rule_name := "Regra 1"; form_rule_type := EXCLUDE; rule_operator := AND;
     rule_enabled := true; numero_oab := "14072"; uf_oab := "ES";
     nome_advogado := ""; nome_parte := "Sinales"; numero_processo := "";
     numero_comunicacao := 0; sigla_tribunal := ""; orgao_id := 0;
     data_inicio := Some (2025, 10, 17); data_fim := None |}.

(** ** The result filters and the pages of [main] *)

(** [a == b] on scalars. *)
Definition py_eqb (a b : pyval) : bool := bool_decide (py_norm a = py_norm b).

(** [set([pub.get(field, 'N/A') for pub in publications])] *)
Definition filter_values (field : string) (publications : list item)
    : pyset :=
  pyset_of ((λ pub, get pub field (PyStr "N/A")) <$> publications).

(** [a <= b] where Python orders the two values: numbers by value, strings
    by code point, which is the order of their UTF-8 bytes. *)
Definition py_leb (a b : pyval) : bool :=
  match py_norm a, py_norm b with
  | PyInt m, PyInt n => m <=? n
  | PyStr s, PyStr t => String.leb s t
  | _, _ => true
  end.

Definition is_number (v : pyval) : bool :=
  match v with PyInt _ | PyBool _ => true | _ => false end.

Definition is_text (v : pyval) : bool :=
  match v with PyStr _ => true | _ => false end.

(** Whether [sorted] can order the different values [l].  It compares
    with [<], which raises [TypeError] between [None] and anything and
    between a number and a string; a list of fewer than two values is
    never compared. *)
Definition sortable (l : list pyval) : bool :=
  match l with
  | [] | [_] => true
  | _ => forallb is_number l || forallb is_text l
  end.

(** [sorted(list(s))]; [None] when it raises [TypeError]. *)
Definition sorted (s : pyset) : option (list pyval) :=
  let values := elements s in
  if sortable values then Some (merge_sort (λ a b, py_leb a b) values)
  else None.

(** [sorted(list(set([pub.get(field, 'N/A') for pub in publications])))]:
    the values the select box of a filter offers after ["Todos"]; [None]
    when [sorted] raises and the page stops before the select box. *)
Definition filter_options (field : string) (publications : list item)
    : option (list pyval) :=
  sorted (filter_values field publications).

(** [if selected != "Todos": filtered = [pub for pub in filtered if
    pub.get(field) == selected]] *)
Definition filter_by (field : string) (selected : pyval)
    (filtered_publications : list item) : list item :=
  if negb (py_eqb selected (PyStr "Todos")) then
    filter (λ pub, py_eqb (get pub field PyNone) selected = true)
           filtered_publications
  else filtered_publications.

Definition apply_filters (tribunal_filter tipo_filter classe_filter : pyval)
    (publications : list item) : list item :=
  filter_by "nomeClasse" classe_filter
    (filter_by "tipoComunicacao" tipo_filter
       (filter_by "siglaTribunal" tribunal_filter publications)).

Definition items_per_page : nat := 10.

(** [l[start_idx:end_idx]] for indices that are not negative. *)
Definition slice {A : Type} (start_idx end_idx : nat) (l : list A) : list A :=
  take (end_idx - start_idx) (drop start_idx l).

(** [start_idx = (page - 1) * items_per_page]; the select box only offers
    pages from 1 up. *)
Definition start_idx (page : nat) : nat := (page - 1) * items_per_page.

(** [current_items = filtered_publications[start_idx:end_idx]] *)
Definition current_items {A : Type} (page : nat) (filtered_publications : list A)
    : list A :=
  slice (start_idx page) (start_idx page + items_per_page)
        filtered_publications.

(** Two pages with a rate-limited attempt between them. *)
Definition script_pages_and_retry : list reply :=
  [ok_page [pub_a]; Response 429 (JsonError "Too Many Requests");
   ok_page [pub_b; pub_c]].

Definition reply_503 : reply := Response 503 (JsonObject None).

(** A rule that is switched off. *)
Definition rule_disabled : SearchRule := SearchRule_init
  "Pausada" INCLUDE OR false {[ "nomeParte" := PyStr "Multivix" ]}.

(** ** Deciding closed facts by evaluation *)

Ltac by_evaluation :=
  lazymatch goal with
  | |- _ = ?b => vm_cast_no_check (@eq_refl _ b)
  | |- _ => apply (bool_decide_unpack _); vm_compute; exact I
  end.

(** ** Deduplication *)

Section remove_duplicates.
Implicit Types (seen : pyset) (l : list item) (pub : item).
Local Arguments remove_duplicates_step : simpl never.

Lemma remove_duplicates_step_key seen uniq pub :
  remove_duplicates_step (seen, uniq) pub =
    if decide (dedup_key pub ∈ seen) then (seen, uniq)
    else ({[ dedup_key pub ]} ∪ seen, uniq ++ [pub]).
Proof.
  unfold remove_duplicates_step, dedup_key, py_in, py_add.
  destruct (truthy (get pub "hash" PyNone)); simpl.
  - by destruct (decide (py_norm (get pub "hash" PyNone) ∈ seen));
      [rewrite bool_decide_eq_true_2|rewrite bool_decide_eq_false_2].
  - match goal with |- context [decide (?k ∈ seen)] =>
      by destruct (decide (k ∈ seen));
        [rewrite bool_decide_eq_true_2|rewrite bool_decide_eq_false_2]
    end.
Qed.

Lemma fold_remove_duplicates_step l seen uniq :
  fold_left remove_duplicates_step l (seen, uniq) =
    (list_to_set (dedup_key <$> l) ∪ seen,
     uniq ++ first_occurrences seen l).
Proof.
  revert seen uniq. induction l as [|pub l IH]; intros seen uniq; simpl.
  - f_equal; [set_solver|by rewrite app_nil_r].
  - rewrite remove_duplicates_step_key.
    destruct (decide (dedup_key pub ∈ seen)); rewrite IH; f_equal.
    + set_solver.
    + set_solver.
    + by rewrite <- app_assoc.
Qed.

Lemma remove_duplicates_first_occurrences l :
  remove_duplicates l = first_occurrences ∅ l.
Proof. unfold remove_duplicates. by rewrite fold_remove_duplicates_step. Qed.

Lemma first_occurrences_sublist seen l : sublist (first_occurrences seen l) l.
Proof.
  revert seen. induction l as [|pub l IH]; intros seen; simpl; [done|].
  destruct (decide _); [by apply sublist_cons|by apply sublist_skip].
Qed.

Lemma first_occurrences_fresh seen l pub :
  pub ∈ first_occurrences seen l → dedup_key pub ∉ seen.
Proof.
  revert seen. induction l as [|p l IH]; intros seen; simpl.
  - by intros ?%elem_of_nil.
  - destruct (decide (dedup_key p ∈ seen)); [by apply IH|].
    intros [->|Hin]%elem_of_cons; [done|].
    apply IH in Hin. set_solver.
Qed.

Lemma first_occurrences_NoDup seen l :
  NoDup (dedup_key <$> first_occurrences seen l).
Proof.
  revert seen. induction l as [|p l IH]; intros seen; simpl.
  - constructor.
  - destruct (decide (dedup_key p ∈ seen)); [by apply IH|].
    rewrite fmap_cons. constructor; [|by apply IH].
    intros (q & Hk & Hq)%list_elem_of_fmap.
    apply first_occurrences_fresh in Hq. set_solver.
Qed.

Lemma first_occurrences_keys seen l :
  list_to_set (dedup_key <$> first_occurrences seen l) ∪ seen
    = list_to_set (dedup_key <$> l) ∪ seen.
Proof.
  revert seen. induction l as [|p l IH]; intros seen; simpl; [done|].
  destruct (decide (dedup_key p ∈ seen)) as [Hin|Hin]; simpl.
  - rewrite IH. set_solver.
  - assert (∀ X : pyset,
              {[dedup_key p]} ∪ X ∪ seen = X ∪ ({[dedup_key p]} ∪ seen))
      as E by set_solver.
    rewrite !E. apply IH.
Qed.

Lemma first_occurrences_app seen l1 l2 :
  first_occurrences seen (l1 ++ l2) =
    first_occurrences seen l1
      ++ first_occurrences (list_to_set (dedup_key <$> l1) ∪ seen) l2.
Proof.
  revert seen. induction l1 as [|p l1 IH]; intros seen; simpl.
  - f_equal. set_solver.
  - destruct (decide (dedup_key p ∈ seen)) as [Hin|Hin]; rewrite IH; simpl.
    + do 2 f_equal. set_solver.
    + do 3 f_equal. set_solver.
Qed.

Lemma first_occurrences_filter seen seen' l :
  first_occurrences (seen ∪ seen') l =
    filter (λ pub, dedup_key pub ∉ seen) (first_occurrences seen' l).
Proof.
  revert seen'. induction l as [|p l IH]; intros seen'; simpl; [done|].
  destruct (decide (dedup_key p ∈ seen')) as [Hin|Hin].
  - rewrite decide_True by set_solver. apply IH.
  - destruct (decide (dedup_key p ∈ seen)) as [Hin'|Hin'].
    + rewrite decide_True by set_solver.
      rewrite filter_cons_False by (simpl; tauto).
      rewrite <- IH. f_equal. set_solver.
    + rewrite decide_False by set_solver.
      rewrite filter_cons_True by done.
      f_equal. rewrite <- IH. f_equal. set_solver.
Qed.

Lemma first_occurrences_id seen l :
  NoDup (dedup_key <$> l) →
  (∀ pub, pub ∈ l → dedup_key pub ∉ seen) →
  first_occurrences seen l = l.
Proof.
  revert seen. induction l as [|p l IH]; intros seen Hnd Hfresh; simpl; [done|].
  rewrite fmap_cons in Hnd. apply NoDup_cons in Hnd as [Hp Hnd].
  rewrite decide_False by (apply Hfresh; left).
  f_equal. apply IH; [done|].
  intros q Hq. specialize (Hfresh q (list_elem_of_further _ _ _ Hq)).
  assert (dedup_key q ≠ dedup_key p).
  { intros Heq. apply Hp. rewrite <- Heq. by apply list_elem_of_fmap_2. }
  set_solver.
Qed.

Lemma dedup_key_of_identity pub :
  dedup_key pub = key_of_identity (spec_identity_key pub).
Proof.
  unfold dedup_key, spec_identity_key, get.
  destruct (pub !! "hash") as [h|]; simpl; [|done].
  by destruct (truthy h).
Qed.
End remove_duplicates.

(** C7, as the code has it.  [remove_duplicates] is stable with respect to
    the key it computes, [dedup_key]: the hash when it is truthy, otherwise
    the id and the case number joined in a string, hashes and strings
    being compared in one set.  Its output is a subsequence of the input
    (relative order kept), holds no two items with the same key, holds
    every key of the input, and an item survives exactly when no earlier
    item of the input has its key: an item whose key occurs before it is
    dropped, and otherwise it is kept right after the survivors of the
    items before it.  Items with the same identity key in the words of the
    specification have the same [dedup_key]: no two survivors share an
    identity key, and an item whose identity key occurs before it is
    dropped. *)
Theorem remove_duplicates_stable (l : list item) :
  sublist (remove_duplicates l) l
  ∧ NoDup (dedup_key <$> remove_duplicates l)
  ∧ NoDup (spec_identity_key <$> remove_duplicates l)
  ∧ list_to_set (dedup_key <$> remove_duplicates l)
      =@{pyset} list_to_set (dedup_key <$> l)
  ∧ (∀ (l1 l2 : list item) (pub : item),
       remove_duplicates (l1 ++ pub :: l2) =
         if decide (dedup_key pub ∈ dedup_key <$> l1)
         then remove_duplicates (l1 ++ l2)
         else remove_duplicates l1 ++ pub ::
                filter (λ q, dedup_key q ∉ dedup_key <$> (l1 ++ [pub]))
                       (remove_duplicates l2))
  ∧ (∀ (l1 l2 : list item) (pub : item),
       spec_identity_key pub ∈ spec_identity_key <$> l1 →
       remove_duplicates (l1 ++ pub :: l2) = remove_duplicates (l1 ++ l2)).
Proof.
  assert (∀ (l1 l2 : list item) (pub : item),
            remove_duplicates (l1 ++ pub :: l2) =
              if decide (dedup_key pub ∈ dedup_key <$> l1)
              then remove_duplicates (l1 ++ l2)
              else remove_duplicates l1 ++ pub ::
                     filter (λ q, dedup_key q ∉ dedup_key <$> (l1 ++ [pub]))
                            (remove_duplicates l2)) as Hsplit.
  { intros l1 l2 pub. rewrite !remove_duplicates_first_occurrences.
    rewrite !first_occurrences_app. simpl.
    assert (∀ seen : pyset, seen ∪ ∅ = seen) as Hemp by set_solver.
    rewrite Hemp.
    destruct (decide (dedup_key pub ∈ dedup_key <$> l1)) as [Hin|Hin].
    - rewrite decide_True by set_solver. done.
    - rewrite decide_False by set_solver. do 2 f_equal.
      rewrite <- (Hemp ({[dedup_key pub]} ∪ _)) at 1.
      rewrite first_occurrences_filter.
      apply list_filter_iff. intros q. rewrite fmap_app. set_solver. }
  rewrite !remove_duplicates_first_occurrences. split_and!.
  - apply first_occurrences_sublist.
  - apply first_occurrences_NoDup.
  - apply (NoDup_fmap_1 key_of_identity). rewrite <- list_fmap_compose.
    erewrite list_fmap_ext; [apply first_occurrences_NoDup|].
    intros _ pub _. symmetry. apply dedup_key_of_identity.
  - pose proof (first_occurrences_keys ∅ l) as H. set_solver.
  - exact Hsplit.
  - intros l1 l2 pub (q & Hkey & Hq)%list_elem_of_fmap.
    rewrite Hsplit, decide_True; [done|].
    rewrite !dedup_key_of_identity, Hkey, <- dedup_key_of_identity.
    by apply list_elem_of_fmap_2.
Qed.

(** C7 fails as stated: the second of these two publications is the first
    one with its identity key, and [remove_duplicates] drops it, because
    the hash of the publication before it reads like its id and case
    number. *)
Lemma first_of_its_identity_key_dropped :
  spec_identity_key pub_h1x ≠ spec_identity_key pub_1x
  ∧ NoDup (spec_identity_key <$> [pub_h1x; pub_1x])
  ∧ dedup_key pub_h1x = dedup_key pub_1x
  ∧ remove_duplicates [pub_h1x; pub_1x] = [pub_h1x].
Proof. split_and!; by_evaluation. Qed.

(** C8. [remove_duplicates] is idempotent. *)
Theorem remove_duplicates_idemp (l : list item) :
  remove_duplicates (remove_duplicates l) = remove_duplicates l.
Proof.
  rewrite !remove_duplicates_first_occurrences.
  apply first_occurrences_id.
  - apply first_occurrences_NoDup.
  - intros pub _. set_solver.
Qed.

(** ** Rule construction *)

(** C10. The constructor keeps exactly the entries whose value is neither
    [None] nor the empty string; [{"numeroOab": "", "ufOab": "ES"}] becomes
    [{"ufOab": "ES"}]. *)
Theorem SearchRule_init_drops_empty (name : string) (rule_type : RuleType)
    (operator : RuleOperator) (enabled : bool) (params : gmap string pyval) :
  (∀ (k : string) (v : pyval),
     parameters (SearchRule_init name rule_type operator enabled params) !! k
       = Some v
     ↔ params !! k = Some v ∧ v ≠ PyNone ∧ v ≠ PyStr "")
  ∧ parameters
      (SearchRule_init name rule_type operator enabled
         {[ "numeroOab" := PyStr ""; "ufOab" := PyStr "ES" ]})
    = {[ "ufOab" := PyStr "ES" ]}.
Proof.
  split.
  - intros k v. unfold SearchRule_init, __post_init__. simpl.
    by rewrite map_lookup_filter_Some.
  - reflexivity.
Qed.

(** ** The paginated executor *)

Section pagination.
Context (progress_callback : bool) (rule_name : pyval).
Implicit Types (st : loop_state) (params : gmap string pyval).

Lemma page_params_pagina params n : page_params params n !!! "pagina" = PyInt n.
Proof. unfold page_params. by rewrite lookup_total_insert_eq. Qed.

Lemma page_params_succ params n :
  alter py_succ "pagina" (page_params params n) = page_params params (n + 1).
Proof.
  unfold page_params. by rewrite alter_insert_eq.
Qed.

Lemma iteration_page st items :
  items ≠ [] →
  iteration progress_callback rule_name st (ok_page items) =
    (Continue,
     {| publications := publications st ++ items;
        search_params := alter py_succ "pagina" (search_params st) |},
     announce progress_callback rule_name st
       ++ [request st; time_sleep (1 # 2)]).
Proof. intros Hne. unfold iteration. simpl. by destruct items. Qed.

Lemma iteration_end st last :
  default [] last = [] →
  iteration progress_callback rule_name st (Response 200 (JsonObject last)) =
    (Break, st, announce progress_callback rule_name st ++ [request st]).
Proof. intros Hlast. unfold iteration. simpl. by rewrite Hlast. Qed.

Lemma iteration_429 st json :
  iteration progress_callback rule_name st (Response 429 json) =
    (Continue, st, retry_log progress_callback rule_name st).
Proof. by destruct json. Qed.

Lemma iteration_failure st r :
  is_failure r →
  ∃ message,
    iteration progress_callback rule_name st r =
      (Break, st,
       announce progress_callback rule_name st
         ++ [request st; st_error message])
    ∧ contains message (py_str rule_name).
Proof.
  destruct r as [e|status_code json]; simpl.
  - intros _. eexists. split; [reflexivity|].
    by exists "Erro na requisição ", (": " +:+ e).
  - unfold iteration. simpl.
    destruct (status_code =? 200) eqn:E200.
    + apply Z.eqb_eq in E200 as ->.
      destruct json as [e|items]; [|by intros [? _]].
      intros _. eexists. split; [reflexivity|].
      by exists "Erro na requisição ", (": " +:+ e).
    + destruct (status_code =? 429) eqn:E429.
      * apply Z.eqb_eq in E429 as ->. destruct json; [done|by intros [_ ?]].
      * intros _. eexists. split; [reflexivity|].
        by exists "Erro na busca ", (": " +:+ pretty status_code).
Qed.

Lemma pagination_pages params pages script pubs n :
  Forall (λ items, items ≠ []) pages →
  pagination progress_callback rule_name
    {| publications := pubs; search_params := page_params params n |}
    ((ok_page <$> pages) ++ script) =
  after (pages_log progress_callback rule_name params pubs n pages)
    (pagination progress_callback rule_name
       {| publications := pubs ++ concat pages;
          search_params := page_params params (n + Z.of_nat (length pages)) |}
       script).
Proof.
  intros Hpages. revert pubs n.
  induction Hpages as [|items pages Hne _ IH]; intros pubs n.
  - unfold after. simpl. rewrite app_nil_r, Z.add_0_r. by destruct pagination.
  - rewrite fmap_cons. cbn [app pagination].
    rewrite (iteration_page _ _ Hne). cbn [publications search_params].
    rewrite page_params_succ, IH. unfold after. cbn [fst snd pages_log concat].
    rewrite <- !app_assoc. cbn [length].
    by replace (n + 1 + Z.of_nat (length pages))
      with (n + Z.of_nat (S (length pages))) by lia.
Qed.

Lemma pagination_retries st n json script :
  pagination progress_callback rule_name st
    (replicate n (Response 429 json) ++ script) =
  after (concat (replicate n (retry_log progress_callback rule_name st)))
    (pagination progress_callback rule_name st script).
Proof.
  induction n as [|n IH]; cbn [replicate concat app pagination].
  - unfold after. simpl. by destruct pagination.
  - rewrite iteration_429, IH. unfold after. simpl. by rewrite app_assoc.
Qed.

Lemma requests_of_app log1 log2 :
  requests_of (log1 ++ log2) = requests_of log1 ++ requests_of log2.
Proof. apply omap_app. Qed.

Lemma errors_of_app log1 log2 :
  errors_of (log1 ++ log2) = errors_of log1 ++ errors_of log2.
Proof. apply omap_app. Qed.

Lemma requests_of_report cb message : requests_of (report cb message) = [].
Proof. by destruct cb. Qed.

Lemma errors_of_report cb message : errors_of (report cb message) = [].
Proof. by destruct cb. Qed.

Lemma requests_of_pages_log params pubs n pages :
  requests_of (pages_log progress_callback rule_name params pubs n pages) =
    page_params params <$> seqZ n (Z.of_nat (length pages)).
Proof.
  revert pubs n. induction pages as [|items pages IH]; intros pubs n; [done|].
  cbn [pages_log]. unfold announce.
  rewrite !requests_of_app, requests_of_report, IH. cbn [length].
  rewrite (seqZ_cons n) by lia. rewrite fmap_cons. simpl.
  do 3 f_equal; lia.
Qed.

Lemma errors_of_pages_log params pubs n pages :
  errors_of (pages_log progress_callback rule_name params pubs n pages) = [].
Proof.
  revert pubs n. induction pages as [|items pages IH]; intros pubs n; [done|].
  cbn [pages_log]. unfold announce.
  by rewrite !errors_of_app, errors_of_report, IH.
Qed.
End pagination.

(** C4. On successful responses carrying the non-empty pages [pages] and
    then an empty (or absent) [items] list, [search_with_params] returns the
    concatenation of the pages in order and leaves every later reply
    unread; it reports no error, and its requests are, in order, the
    parameters with [itensPorPagina = 50] and [pagina = 1, 2, ...], one per
    page and one for the empty page. *)
Theorem search_with_params_pages (params : gmap string pyval)
    (progress_callback : bool) (pages : list (list item))
    (last : option (list item)) (rest : list reply) :
  Forall (λ items, items ≠ []) pages →
  default [] last = [] →
  ∃ log : list event,
    search_with_params params progress_callback
      ((ok_page <$> pages) ++ Response 200 (JsonObject last) :: rest)
      = (log, Returned (concat pages) rest)
    ∧ requests_of log =
        (λ n, <["pagina" := PyInt n]> (<["itensPorPagina" := PyInt 50]> params))
          <$> seqZ 1 (Z.of_nat (length pages) + 1)
    ∧ errors_of log = [].
Proof.
  intros Hpages Hlast. unfold search_with_params.
  change (<["pagina":=PyInt 1]> (<["itensPorPagina":=PyInt 50]> params))
    with (page_params params 1).
  rewrite pagination_pages by done. cbn [pagination].
  rewrite iteration_end by done. unfold after. cbn [fst snd publications app].
  eexists. split; [reflexivity|]. split.
  - rewrite requests_of_app, requests_of_pages_log. unfold announce, request.
    rewrite requests_of_app, requests_of_report. simpl.
    rewrite seqZ_app by lia. rewrite fmap_app. do 2 f_equal.
  - rewrite errors_of_app, errors_of_pages_log. unfold announce.
    by rewrite errors_of_app, errors_of_report.
Qed.

(** C5. A 429 response, whatever the state of the loop, leaves the page
    counter and the accumulated publications as they are and lets the loop
    go on.  The turn is: the announcement of the page through the progress
    callback (when there is one), the request, the call
    [progress_callback("Rate limit atingido. Aguardando...")] (when there
    is one), and [time.sleep(10)].  The same request is then sent again;
    [n] such responses in a row, for any [n], only add [n] copies of that
    turn to the log of the run that follows them. *)
Theorem rate_limit_retries (progress_callback : bool) (rule_name : pyval)
    (st : loop_state) (json : json_result) (n : nat) (script : list reply) :
  let turn : list event :=
    (if progress_callback
     then [progress_callback_call
             ("Executando " +:+ py_str rule_name +:+ " - Página "
                +:+ py_str (search_params st !!! "pagina"))]
     else [])
      ++ [requests_get base_url (search_params st) 30]
      ++ (if progress_callback
          then [progress_callback_call "Rate limit atingido. Aguardando..."]
          else [])
      ++ [time_sleep 10] in
  iteration progress_callback rule_name st (Response 429 json) =
    (Continue, st, turn)
  ∧ pagination progress_callback rule_name st
      (replicate n (Response 429 json) ++ script) =
    (concat (replicate n turn)
       ++ (pagination progress_callback rule_name st script).1,
     (pagination progress_callback rule_name st script).2)
  ∧ requests_of (pagination progress_callback rule_name st
                   (replicate n (Response 429 json))).1
    = replicate (S n) (search_params st)
  ∧ (pagination progress_callback rule_name st
       (replicate n (Response 429 json))).2 = Blocked.
Proof.
  intros turn.
  assert (retry_log progress_callback rule_name st = turn) as Hturn
    by (by destruct progress_callback).
  split_and!.
  - rewrite iteration_429. by rewrite <- Hturn; destruct progress_callback.
  - by rewrite pagination_retries, Hturn.
  - rewrite <- (app_nil_r (replicate n _)), pagination_retries.
    unfold after. cbn [fst pagination]. rewrite requests_of_app.
    assert (requests_of (retry_log progress_callback rule_name st)
            = [search_params st]) as Hone.
    { unfold retry_log, announce.
      by rewrite !requests_of_app, !requests_of_report. }
    assert (requests_of (announce progress_callback rule_name st ++ [request st])
            = [search_params st]) as Hlast.
    { unfold announce. by rewrite requests_of_app, requests_of_report. }
    rewrite Hlast. clear Hlast.
    induction n as [|n IH]; [done|].
    cbn [replicate concat]. rewrite requests_of_app, Hone.
    cbn [app]. by rewrite IH.
  - rewrite <- (app_nil_r (replicate n _)), pagination_retries. done.
Qed.

(** ** The rule loop *)

Section rules_loop.
Context (progress_callback : bool).
Implicit Types (rule : SearchRule) (acc : list item * list item).

Lemma io_bind_unfold {A B : Type} (m : io A) (f : A → io B) script :
  (m ≫= f) script =
    match m script with
    | (log, Blocked) => (log, Blocked)
    | (log, Returned a rest) => after log (f a rest)
    end.
Proof.
  unfold mbind, io_bind, after.
  destruct (m script) as [log [a rest|]]; [|done]. by destruct (f a rest).
Qed.

Lemma after_app {A : Type} log1 log2 (run : list event * outcome A) :
  after log1 (after log2 run) = after (log1 ++ log2) run.
Proof. unfold after. simpl. by rewrite app_assoc. Qed.

Lemma rules_loop_disabled rule rules acc script :
  enabled rule = false →
  rules_loop progress_callback (rule :: rules) acc script =
    rules_loop progress_callback rules acc script.
Proof. intros H. simpl. by rewrite H. Qed.

Lemma rules_loop_enabled rule rules acc script :
  enabled rule = true →
  rules_loop progress_callback (rule :: rules) acc script =
    after (report progress_callback ("Executando regra: " +:+ name rule))
      match search_with_params (rule_params rule) progress_callback script with
      | (log, Blocked) => (log, Blocked)
      | (log, Returned pubs rest) =>
          after log
            (rules_loop progress_callback rules (accumulate rule pubs acc) rest)
      end.
Proof.
  intros H. cbn [rules_loop]. rewrite H. cbn [negb].
  rewrite io_bind_unfold. unfold emit at 1.
  by rewrite io_bind_unfold.
Qed.

Lemma rules_loop_app pre post acc script :
  rules_loop progress_callback (pre ++ post) acc script =
    match rules_loop progress_callback pre acc script with
    | (log, Blocked) => (log, Blocked)
    | (log, Returned acc' rest) =>
        after log (rules_loop progress_callback post acc' rest)
    end.
Proof.
  revert acc script. induction pre as [|rule pre IH]; intros acc script.
  - simpl. unfold mret, io_ret, after. simpl. by destruct rules_loop.
  - rewrite <- app_comm_cons. destruct (enabled rule) eqn:Hen.
    + rewrite !rules_loop_enabled by done.
      destruct (search_with_params _ _ _) as [log [pubs rest|]]; [|done].
      rewrite IH.
      destruct (rules_loop progress_callback pre _ rest)
        as [log' [acc' rest'|]]; unfold after; simpl; [|done].
      by rewrite <- !app_assoc.
    + rewrite !rules_loop_disabled by done. apply IH.
Qed.

Lemma execute_rules_unfold rules script :
  execute_rules rules progress_callback script =
    match rules_loop progress_callback rules ([], []) script with
    | (log, Blocked) => (log, Blocked)
    | (log, Returned acc rest) =>
        (log ++ (finish progress_callback acc).1,
         Returned (finish progress_callback acc).2 rest)
    end.
Proof.
  unfold execute_rules. rewrite io_bind_unfold.
  destruct rules_loop as [log [acc rest|]]; [|done].
  destruct (finish progress_callback acc) as [log' final].
  rewrite io_bind_unfold. unfold emit, after, mret, io_ret. simpl.
  by rewrite app_nil_r.
Qed.

Lemma rule_name_of_rule_params rule :
  get (rule_params rule) "_rule_name" (PyStr "Busca") = PyStr (name rule).
Proof. unfold get, rule_params. by rewrite lookup_insert_eq. Qed.
End rules_loop.

(** ** Failures *)

Lemma search_with_params_failure (params : gmap string pyval)
    (progress_callback : bool) (pages : list (list item)) (r : reply)
    (rest : list reply) :
  Forall (λ items, items ≠ []) pages →
  is_failure r →
  ∃ log message,
    search_with_params params progress_callback
      ((ok_page <$> pages) ++ r :: rest) = (log, Returned (concat pages) rest)
    ∧ errors_of log = [message]
    ∧ contains message (py_str (get params "_rule_name" (PyStr "Busca"))).
Proof.
  intros Hpages Hr. unfold search_with_params.
  change (<["pagina":=PyInt 1]> (<["itensPorPagina":=PyInt 50]> params))
    with (page_params params 1).
  rewrite pagination_pages by done. cbn [pagination].
  edestruct iteration_failure as (message & -> & Hmsg); [exact Hr|].
  unfold after. cbn [fst snd publications app].
  eexists _, message. split; [reflexivity|]. split; [|done].
  rewrite errors_of_app, errors_of_pages_log. unfold announce.
  by rewrite errors_of_app, errors_of_report.
Qed.

(** ** Requests *)

Section requests.
Context (progress_callback : bool).






End requests.


(** ** Fusion *)

Section fusion.
Implicit Types (pub : item) (pubs include exclude : list item).

Lemma filter_ext_elem {A : Type} (P Q : A → Prop)
    `{!∀ x, Decision (P x), !∀ x, Decision (Q x)} (l : list A) :
  (∀ x, x ∈ l → P x ↔ Q x) → filter P l = filter Q l.
Proof.
  induction l as [|x l IH]; intros Hext; [done|].
  rewrite !filter_cons. rewrite IH by (intros; apply Hext; by right).
  pose proof (Hext x ltac:(left)) as Hx.
  destruct (decide (P x)), (decide (Q x)); tauto || done.
Qed.

Lemma elem_of_pyset_of (v : pyval) (l : list item) :
  v ∈ pyset_of (hash_or_id <$> l) ↔ v ∈ match_key <$> l.
Proof.
  unfold pyset_of. rewrite elem_of_list_to_set.
  by rewrite <- list_fmap_compose.
Qed.

Lemma py_in_pyset_of pub (l : list item) :
  py_in (hash_or_id pub) (pyset_of (hash_or_id <$> l)) = true
  ↔ match_key pub ∈ match_key <$> l.
Proof.
  unfold py_in. rewrite bool_decide_eq_true. apply elem_of_pyset_of.
Qed.

Lemma accumulate_and rule pubs include exclude :
  rule_type rule = INCLUDE → operator rule = AND →
  accumulate rule pubs (include, exclude) =
    (match include with
     | [] => pubs
     | _ => filter (λ pub, match_key pub ∈ match_key <$> pubs) include
     end, exclude).
Proof.
  intros Ht Ho. unfold accumulate. rewrite Ht, Ho.
  destruct include as [|pub include]; [done|]. f_equal.
  apply filter_ext_elem. intros p Hp.
  unfold py_in. rewrite bool_decide_eq_true, elem_of_intersection.
  rewrite !elem_of_pyset_of. split; [by intros [_ ?]|].
  intros H. split; [|done]. by apply (list_elem_of_fmap_2 match_key).
Qed.

Lemma finish_exclusion cb include exclude :
  exclude ≠ [] →
  (finish cb (include, exclude)).2 =
    filter (λ pub, match_key pub ∉ match_key <$> exclude)
           (remove_duplicates include).
Proof.
  intros Hne. unfold finish.
  destruct exclude as [|pub exclude]; [done|]. cbn [snd].
  apply list_filter_iff. intros p.
  rewrite <- py_in_pyset_of. by destruct py_in.
Qed.

Lemma finish_no_exclusion cb include :
  (finish cb (include, [])).2 = remove_duplicates include.
Proof. done. Qed.

Lemma remove_duplicates_NoDup_id pubs :
  NoDup (dedup_key <$> pubs) → remove_duplicates pubs = pubs.
Proof.
  intros H. rewrite remove_duplicates_first_occurrences.
  apply first_occurrences_id; [done|]. set_solver.
Qed.
End fusion.

(** ** Pages of objects in the engine on arbitrary pages *)

Section objects.
Context (progress_callback : bool).

Lemma raw_iteration rule_name st r :
  Raw.iteration progress_callback rule_name (raw_state st) (raw_reply r) =
    let '(c, st', log) := iteration progress_callback rule_name st r in
    (c, raw_state st', log).
Proof.
  unfold Raw.iteration, iteration, Raw.try_block, try_block.
  destruct r as [e|status_code [e|[[|pub items]|]]]; simpl; try done.
  all: destruct (status_code =? 200); [|by destruct (status_code =? 429)].
  all: try done.
  unfold raw_state. simpl. by rewrite fmap_app.
Qed.

Lemma raw_pagination rule_name st script :
  Raw.pagination progress_callback rule_name (raw_state st)
    (raw_reply <$> script) =
    ((pagination progress_callback rule_name st script).1,
     raw_outcome (fmap Raw.Obj)
       (pagination progress_callback rule_name st script).2).
Proof.
  revert st. induction script as [|r script IH]; intros st; [done|].
  cbn [fmap list_fmap Raw.pagination pagination]. rewrite raw_iteration.
  destruct (iteration progress_callback rule_name st r) as [[[|] st'] log].
  - done.
  - rewrite IH. by destruct (pagination progress_callback rule_name st' script).
Qed.

Lemma raw_search_with_params params script :
  Raw.search_with_params params progress_callback (raw_reply <$> script) =
    ((search_with_params params progress_callback script).1,
     raw_outcome (fmap Raw.Obj)
       (search_with_params params progress_callback script).2).
Proof. apply (raw_pagination _ {| publications := [] |}). Qed.

Lemma raw_dicts (l : list item) : Raw.dicts (Raw.Obj <$> l) = Some l.
Proof. by apply mapM_fmap_Some. Qed.

Lemma raw_accumulate rule pubs (acc : list item * list item) :
  Raw.accumulate rule (Raw.Obj <$> pubs) (raw_acc acc) =
    inr (raw_acc (accumulate rule pubs acc)).
Proof.
  destruct acc as [include exclude]. unfold Raw.accumulate, accumulate, raw_acc.
  cbn [fst snd].
  destruct (rule_type rule); [destruct (operator rule)|].
  - destruct include as [|pub include]; [done|].
    rewrite fmap_cons, <- (fmap_cons Raw.Obj), !raw_dicts. done.
  - cbn [fst snd]. by rewrite fmap_app.
  - cbn [fst snd]. by rewrite fmap_app.
Qed.

Lemma raw_rules_loop rules (acc : list item * list item) script :
  Raw.rules_loop progress_callback rules (raw_acc acc) (raw_reply <$> script) =
    ((rules_loop progress_callback rules acc script).1,
     raw_outcome raw_acc (rules_loop progress_callback rules acc script).2).
Proof.
  revert acc script. induction rules as [|rule rules IH]; intros acc script.
  - done.
  - destruct (enabled rule) eqn:Hen.
    + rewrite rules_loop_enabled by done.
      cbn [Raw.rules_loop]. rewrite Hen. cbn [negb].
      unfold mbind at 1, Raw.io_bind at 1, Raw.emit at 1.
      unfold mbind, Raw.io_bind. rewrite raw_search_with_params.
      destruct (search_with_params _ _ script) as [log [pubs rest|]];
        cbn [fst snd raw_outcome after]; [|done].
      rewrite raw_accumulate, IH.
      by destruct (rules_loop progress_callback rules _ rest).
    + rewrite rules_loop_disabled by done.
      cbn [Raw.rules_loop]. rewrite Hen. apply IH.
Qed.

Lemma raw_execute_rules rules script :
  Raw.execute_rules rules progress_callback (raw_reply <$> script) =
    ((execute_rules rules progress_callback script).1,
     raw_outcome (fmap Raw.Obj)
       (execute_rules rules progress_callback script).2).
Proof.
  rewrite execute_rules_unfold. unfold Raw.execute_rules.
  unfold mbind at 1, Raw.io_bind at 1.
  rewrite (raw_rules_loop rules ([], [])).
  destruct (rules_loop progress_callback rules ([], []) script)
    as [log [[include exclude] rest|]]; cbn [fst snd raw_outcome raw_acc]; [|done].
  unfold mbind, Raw.io_bind, Raw.emit. rewrite raw_dicts.
  unfold finish. destruct exclude as [|pub exclude].
  - unfold mret, Raw.io_ret. cbn [fst snd fmap list_fmap]. by rewrite app_nil_r.
  - rewrite (raw_dicts (pub :: exclude)).
    unfold mret, Raw.io_ret. cbn [fst snd fmap list_fmap].
    by rewrite app_nil_r, app_assoc.
Qed.

Lemma finish_filter (include exclude : list item) :
  (finish progress_callback (include, exclude)).2 =
    filter (λ pub, match_key pub ∉ match_key <$> exclude)
           (remove_duplicates include).
Proof.
  destruct exclude as [|pub exclude]; [|by apply finish_exclusion].
  rewrite finish_no_exclusion. generalize (remove_duplicates include).
  intros l. induction l as [|pub l IH]; [done|].
  rewrite filter_cons, decide_True by apply not_elem_of_nil.
  by rewrite <- IH.
Qed.
End objects.

(** ** Elements that are no objects *)

Section non_objects.
Context (progress_callback : bool).

Lemma objects_app l1 l2 : objects (l1 ++ l2) ↔ objects l1 ∧ objects l2.
Proof. unfold objects, Raw.dicts. by rewrite !mapM_is_Some, Forall_app. Qed.

Lemma objects_concat ls : objects (concat ls) ↔ Forall objects ls.
Proof.
  induction ls as [|l ls IH]; simpl.
  - split; [constructor|]. intros _. by eexists.
  - rewrite objects_app, Forall_cons. by rewrite IH.
Qed.

Lemma objects_fmap (l : list item) : objects (Raw.Obj <$> l).
Proof. unfold objects. by rewrite raw_dicts. Qed.

Lemma raw_iteration_fetched rule_name st r :
  Raw.publications (Raw.iteration progress_callback rule_name st r).1.2 =
    Raw.publications st ++ raw_fetched r.
Proof.
  unfold Raw.iteration, Raw.try_block, raw_fetched.
  destruct r as [e|status_code [e|items]]; simpl.
  - by rewrite app_nil_r.
  - destruct (status_code =? 200); simpl; [by rewrite app_nil_r|].
    destruct (status_code =? 429); simpl; by rewrite app_nil_r.
  - destruct (status_code =? 200); simpl.
    + destruct (default [] items); simpl; [by rewrite app_nil_r|done].
    + destruct (status_code =? 429); simpl; by rewrite app_nil_r.
Qed.

Lemma raw_pagination_fetched rule_name st script log pubs rest :
  Raw.pagination progress_callback rule_name st script
    = (log, Raw.Returned pubs rest) →
  ∃ consumed,
    script = consumed ++ rest
    ∧ pubs = Raw.publications st ++ concat (raw_fetched <$> consumed).
Proof.
  revert st log. induction script as [|r script IH]; intros st log; [done|].
  cbn [Raw.pagination].
  pose proof (raw_iteration_fetched rule_name st r) as Hfetched.
  destruct (Raw.iteration progress_callback rule_name st r)
    as [[[|] st'] log1]; cbn [fst snd] in Hfetched.
  - intros [= <- <- <-]. exists [r]. split; [done|].
    simpl. by rewrite app_nil_r.
  - destruct (Raw.pagination progress_callback rule_name st' script)
      as [log2 o] eqn:Hrun.
    intros [= <- ->]. apply IH in Hrun as (consumed & -> & ->).
    exists (r :: consumed). split; [done|].
    rewrite Hfetched. simpl. by rewrite app_assoc.
Qed.

Lemma raw_accumulate_objects rule pubs acc acc' :
  Raw.accumulate rule pubs acc = inr acc' →
  objects (acc'.1 ++ acc'.2) →
  objects pubs ∧ objects (acc.1 ++ acc.2).
Proof.
  destruct acc as [include exclude]. unfold Raw.accumulate. cbn [fst snd].
  destruct (rule_type rule); [destruct (operator rule)|].
  - destruct include as [|pub include].
    + intros [= <-]. cbn [fst snd]. rewrite !objects_app.
      intros [? ?]. split_and!; [done| |done]. by eexists.
    + destruct (Raw.dicts (pub :: include)) as [include_dicts|] eqn:Hinc;
        [|done].
      destruct (Raw.dicts pubs) as [pubs_dicts|] eqn:Hpubs; [|done].
      intros [= <-]. cbn [fst snd]. rewrite !objects_app.
      intros [_ ?]. unfold objects. rewrite Hinc, Hpubs. by split_and!.
  - intros [= <-]. cbn [fst snd]. rewrite !objects_app. naive_solver.
  - intros [= <-]. cbn [fst snd]. rewrite !objects_app. naive_solver.
Qed.

Lemma raw_rules_loop_objects rules acc script log acc' rest :
  Raw.rules_loop progress_callback rules acc script
    = (log, Raw.Returned acc' rest) →
  objects (acc'.1 ++ acc'.2) →
  objects (acc.1 ++ acc.2)
  ∧ ∃ consumed,
      script = consumed ++ rest
      ∧ Forall (λ r, objects (raw_fetched r)) consumed.
Proof.
  revert acc script log.
  induction rules as [|rule rules IH]; intros acc script log.
  - intros [= _ <- <-] Hobj. split; [done|]. by exists [].
  - cbn [Raw.rules_loop]. destruct (enabled rule); cbn [negb]; [|apply IH].
    unfold mbind, Raw.io_bind, Raw.emit.
    destruct (Raw.search_with_params (rule_params rule) progress_callback
                script) as [log1 [pubs rest1| |e]] eqn:Hsearch; [|done..].
    destruct (Raw.accumulate rule pubs acc) as [e|acc1] eqn:Hacc; [done|].
    destruct (Raw.rules_loop progress_callback rules acc1 rest1)
      as [log2 o] eqn:Hloop.
    intros [= _ ->] Hobj.
    destruct (IH _ _ _ Hloop Hobj) as (Hacc1 & consumed2 & -> & Hconsumed2).
    destruct (raw_accumulate_objects _ _ _ _ Hacc Hacc1) as [Hpubs Hobjacc].
    split; [done|].
    apply raw_pagination_fetched in Hsearch as (consumed1 & -> & ->).
    exists (consumed1 ++ consumed2). split; [by rewrite app_assoc|].
    apply Forall_app. split; [|done].
    cbn [Raw.publications app] in Hpubs.
    apply objects_concat in Hpubs. by rewrite Forall_fmap in Hpubs.
Qed.
End non_objects.

(** C6. A reply that is a failure (an exception of the transport, a body
    that cannot be decoded, a status other than 200 and 429) ends the
    pagination of the rule at once, whatever the state of the loop: after
    the request, an error naming the rule is shown and the publications
    accumulated so far are returned.  Inside [execute_rules] the failure
    goes no further: the publications the failing rule had fetched are
    folded into the accumulators, the rules after it run on the rest of
    the script, and [execute_rules] returns the deduplicated include
    accumulator of the whole run without the publications matched by its
    exclude accumulator.  It returns it also in the engine in which
    [execute_rules] can raise. *)
Theorem failure_is_isolated (progress_callback : bool) (rule_name : pyval)
    (st : loop_state) (r : reply) (rest : list reply)
    (pre post : list SearchRule) (rule : SearchRule)
    (pages : list (list item)) (script : list reply)
    (log_pre log_post : list event) (acc : list item * list item)
    (include exclude : list item) (rest' : list reply) :
  is_failure r →
  enabled rule = true →
  Forall (λ items, items ≠ []) pages →
  rules_loop progress_callback pre ([], []) script
    = (log_pre, Returned acc ((ok_page <$> pages) ++ r :: rest)) →
  rules_loop progress_callback post (accumulate rule (concat pages) acc) rest
    = (log_post, Returned (include, exclude) rest') →
  let final :=
    filter (λ pub, match_key pub ∉ match_key <$> exclude)
           (remove_duplicates include) in
  (∃ message,
     pagination progress_callback rule_name st (r :: rest) =
       ((if progress_callback
         then [progress_callback_call
                 ("Executando " +:+ py_str rule_name +:+ " - Página "
                    +:+ py_str (search_params st !!! "pagina"))]
         else [])
          ++ [requests_get base_url (search_params st) 30; st_error message],
        Returned (publications st) rest)
     ∧ contains message (py_str rule_name))
  ∧ (∃ log message,
       execute_rules (pre ++ rule :: post) progress_callback script =
         (log, Returned final rest')
       ∧ Raw.execute_rules (pre ++ rule :: post) progress_callback
           (raw_reply <$> script) =
         (log, Raw.Returned (Raw.Obj <$> final) (raw_reply <$> rest'))
       ∧ message ∈ errors_of log
       ∧ contains message (name rule)).
Proof.
  intros Hr Hen Hpages Hpre Hpost final. split.
  - destruct (iteration_failure progress_callback rule_name st r Hr)
      as (message & Hit & Hmsg).
    exists message. split; [|done]. cbn [pagination]. rewrite Hit.
    by destruct progress_callback.
  - destruct (search_with_params_failure (rule_params rule) progress_callback
                pages r rest Hpages Hr) as (log & message & Hs & Herr & Hmsg).
    rewrite rule_name_of_rule_params in Hmsg. simpl in Hmsg.
    assert (∃ log',
              execute_rules (pre ++ rule :: post) progress_callback script =
                (log', Returned final rest')
              ∧ message ∈ errors_of log') as (log' & Hrun & Hin).
    { rewrite execute_rules_unfold, rules_loop_app, Hpre.
      rewrite rules_loop_enabled by done. rewrite Hs, Hpost.
      unfold after. cbn [fst snd]. rewrite finish_filter.
      eexists. split; [reflexivity|].
      rewrite !errors_of_app, Herr. set_solver. }
    exists log', message. split; [exact Hrun|]. split; [|done].
    by rewrite raw_execute_rules, Hrun.
Qed.

(** The keys the three steps compare.  [remove_duplicates] takes two items
    for the same one exactly when their [dedup_key]s are equal: the hash
    when it is truthy (present, not null, not empty), otherwise the string
    made of the id, an underscore and the case number.  The And-intersection
    and the exclusion of [execute_rules] take two items for the same one
    exactly when their [match_key]s are equal: the value of the [hash] entry
    whenever the entry exists, otherwise the id alone (the empty string when
    there is none); the case number plays no part. *)
Lemma identity_keys_of_the_steps (x y : item) (h : pyval) (rule_name : string)
    (rule_enabled cb : bool) (rule_parameters : gmap string pyval)
    (exclude : list item) :
  remove_duplicates [x; y]
    = (if decide (dedup_key x = dedup_key y) then [x] else [x; y])
  ∧ accumulate
      (Build_SearchRule rule_name INCLUDE AND rule_enabled rule_parameters)
      [y] ([x], exclude)
    = (if decide (match_key x = match_key y) then [x] else [], exclude)
  ∧ (finish cb ([x], [y])).2
    = (if decide (match_key x = match_key y) then [] else [x])
  ∧ match_key (<["hash" := h]> x) = py_norm h
  ∧ match_key (delete "hash" x) = py_norm (get x "id" (PyStr ""))
  ∧ dedup_key (<["hash" := h]> x)
    = (if truthy h then py_norm h
       else PyStr (py_str (get x "id" (PyStr "")) +:+ "_"
                     +:+ py_str (get x "numeroprocessocommascara" (PyStr ""))))
  ∧ dedup_key (delete "hash" x)
    = PyStr (py_str (get x "id" (PyStr "")) +:+ "_"
               +:+ py_str (get x "numeroprocessocommascara" (PyStr ""))).
Proof.
  split_and!.
  - rewrite remove_duplicates_first_occurrences. simpl.
    rewrite decide_False by set_solver.
    destruct (decide (dedup_key x = dedup_key y)) as [Heq|Hne].
    + rewrite decide_True by set_solver. done.
    + rewrite decide_False by set_solver. done.
  - rewrite accumulate_and by done. f_equal.
    rewrite filter_singleton by exact [].
    destruct (decide (match_key x = match_key y)) as [Heq|Hne].
    + rewrite decide_True by set_solver. done.
    + rewrite decide_False by set_solver. done.
  - rewrite finish_exclusion by done.
    replace (remove_duplicates [x]) with [x]
      by (symmetry; apply remove_duplicates_NoDup_id; apply NoDup_singleton).
    rewrite filter_singleton by exact [].
    destruct (decide (match_key x = match_key y)) as [Heq|Hne].
    + rewrite decide_False by set_solver. done.
    + rewrite decide_True by set_solver. done.
  - unfold match_key, hash_or_id, get. by rewrite lookup_insert_eq.
  - unfold match_key, hash_or_id, get. rewrite lookup_delete_eq.
    by rewrite lookup_delete_ne.
  - unfold dedup_key, get. rewrite lookup_insert_eq.
    by rewrite !lookup_insert_ne.
  - unfold dedup_key, get. rewrite lookup_delete_eq.
    by rewrite !lookup_delete_ne.
Qed.

(** C1. The steps of the code do not share the identity key.
    [remove_duplicates] compares it: two publications without a hash, with
    the same id and different case numbers, have different identity keys
    and are both kept; so are two publications whose hash is [null], with
    different ids.  The And-intersection and the exclusion of
    [execute_rules] compare [pub.get('hash', pub.get('id', ''))] instead:
    they take the first two for the same publication, because the case
    number plays no part, and the last two as well, because a [null] hash
    is not treated as absent. *)
Theorem identity_key_not_shared :
  pub_1x !! "hash" = None ∧ pub_1y !! "hash" = None
  ∧ spec_identity_key pub_1x ≠ spec_identity_key pub_1y
  ∧ remove_duplicates [pub_1x; pub_1y] = [pub_1x; pub_1y]
  ∧ accumulate rule_and [pub_1y] ([pub_1x], []) = ([pub_1x], [])
  ∧ (finish false ([pub_1x], [pub_1y])).2 = []
  ∧ spec_intersection [pub_1x] [pub_1y] = []
  ∧ spec_exclusion [pub_1x] [pub_1y] = [pub_1x]
  ∧ truthy (get pub_n1 "hash" PyNone) = false
  ∧ truthy (get pub_n2 "hash" PyNone) = false
  ∧ spec_identity_key pub_n1 ≠ spec_identity_key pub_n2
  ∧ remove_duplicates [pub_n1; pub_n2] = [pub_n1; pub_n2]
  ∧ accumulate rule_and [pub_n2] ([pub_n1], []) = ([pub_n1], [])
  ∧ (finish false ([pub_n1], [pub_n2])).2 = []
  ∧ spec_intersection [pub_n1] [pub_n2] = []
  ∧ spec_exclusion [pub_n1] [pub_n2] = [pub_n1].
Proof. split_and!; by_evaluation. Qed.

(** An Include/Or rule and an Exclude rule, for arbitrary publications. *)
Lemma execute_rules_include_exclude (cb : bool) (r_inc r_exc : SearchRule)
    (A B C : item) (script script1 rest : list reply) (log1 log2 : list event) :
  enabled r_inc = true → rule_type r_inc = INCLUDE → operator r_inc = OR →
  enabled r_exc = true → rule_type r_exc = EXCLUDE →
  search_with_params (rule_params r_inc) cb script
    = (log1, Returned [A; B; C] script1) →
  search_with_params (rule_params r_exc) cb script1
    = (log2, Returned [B] rest) →
  NoDup (dedup_key <$> [A; B; C]) →
  match_key A ≠ match_key B → match_key C ≠ match_key B →
  ∃ log, execute_rules [r_inc; r_exc] cb script = (log, Returned [A; C] rest).
Proof.
  intros Hen1 Ht1 Ho1 Hen2 Ht2 Hs1 Hs2 Hnd HA HC.
  rewrite execute_rules_unfold.
  rewrite rules_loop_enabled, Hs1 by done.
  rewrite rules_loop_enabled, Hs2 by done.
  unfold accumulate. rewrite Ht1, Ho1, Ht2. cbn [rules_loop app].
  unfold mret, io_ret, after. cbn [fst snd].
  eexists. f_equal. f_equal.
  rewrite finish_exclusion by done.
  rewrite remove_duplicates_NoDup_id by done.
  rewrite !filter_cons, filter_nil.
  rewrite decide_True by set_solver.
  rewrite decide_False by set_solver.
  rewrite decide_True by set_solver. done.
Qed.

(** The exclusion the code performs.  When the loop over the rules ends
    with a non-empty exclude accumulator, [execute_rules] returns the items
    of the deduplicated include accumulator whose [match_key] is the
    [match_key] of no item of the exclude accumulator, in the order of the
    deduplicated include list.  An enabled Include/Or rule yielding
    [A, B, C] and an enabled Exclude rule yielding [B] return [A, C] when
    the three have different [dedup_key]s and neither [A] nor [C] has the
    [match_key] of [B]. *)
Lemma execute_rules_exclusion :
  (∀ (rules : list SearchRule) (cb : bool) (script rest : list reply)
     (log : list event) (include exclude : list item),
     rules_loop cb rules ([], []) script
       = (log, Returned (include, exclude) rest) →
     exclude ≠ [] →
     ∃ log',
       execute_rules rules cb script =
         (log',
          Returned (filter (λ pub, match_key pub ∉ match_key <$> exclude)
                           (remove_duplicates include)) rest))
  ∧ (∀ (cb : bool) (r_inc r_exc : SearchRule) (A B C : item)
       (script script1 rest : list reply) (log1 log2 : list event),
       enabled r_inc = true → rule_type r_inc = INCLUDE → operator r_inc = OR →
       enabled r_exc = true → rule_type r_exc = EXCLUDE →
       search_with_params (rule_params r_inc) cb script
         = (log1, Returned [A; B; C] script1) →
       search_with_params (rule_params r_exc) cb script1
         = (log2, Returned [B] rest) →
       NoDup (dedup_key <$> [A; B; C]) →
       match_key A ≠ match_key B → match_key C ≠ match_key B →
       ∃ log,
         execute_rules [r_inc; r_exc] cb script = (log, Returned [A; C] rest)).
Proof.
  split.
  - intros rules cb script rest log include exclude Hloop Hne.
    rewrite execute_rules_unfold, Hloop. eexists. f_equal. f_equal.
    by apply finish_exclusion.
  - apply execute_rules_include_exclude.
Qed.

(** C2. The exclusion of the code drops a publication whose identity key
    matches no excluded one.  The Include/Or rule yields three publications
    with three different identity keys, which [remove_duplicates] keeps
    apart; the Exclude rule yields the second of them; [execute_rules]
    returns the third alone, where the exclusion by identity key keeps the
    first too.  The first is dropped because it shares its id with the
    second and the exclusion compares [pub.get('hash', pub.get('id', ''))],
    in which the case number plays no part. *)
Theorem exclusion_drops_other_case_number :
  let script := [ok_page [pub_1x; pub_1y; pub_2z]; ok_page [];
                 ok_page [pub_1y]; ok_page []] in
  (rules_loop false [rule_or; rule_exclude] ([], []) script).2
    = Returned ([pub_1x; pub_1y; pub_2z], [pub_1y]) []
  ∧ (execute_rules [rule_or; rule_exclude] false script).2
    = Returned [pub_2z] []
  ∧ spec_exclusion (remove_duplicates [pub_1x; pub_1y; pub_2z]) [pub_1y]
    = [pub_1x; pub_2z]
  ∧ NoDup (spec_identity_key <$> [pub_1x; pub_1y; pub_2z])
  ∧ (execute_rules [rule_or; rule_exclude] false script).2
    ≠ Returned
        (spec_exclusion (remove_duplicates [pub_1x; pub_1y; pub_2z]) [pub_1y])
        [].
Proof.
  intros script.
  assert ((execute_rules [rule_or; rule_exclude] false script).2
          = Returned [pub_2z] []) as Hrun by by_evaluation.
  assert (spec_exclusion (remove_duplicates [pub_1x; pub_1y; pub_2z]) [pub_1y]
          = [pub_1x; pub_2z]) as Hspec by by_evaluation.
  split_and!; [by_evaluation|exact Hrun|exact Hspec|by_evaluation|].
  rewrite Hrun, Hspec. discriminate.
Qed.

(** The And step the code performs.  An Include/And rule replaces an
    empty include accumulator by its publications, and otherwise keeps, in
    their order, the items of the accumulator whose [match_key] is the
    [match_key] of one of its publications.  For two enabled Include/And
    rules of which the first yields at least one publication, the include
    accumulator after the loop is the first rule's list filtered in this
    way by the second rule's; when the first yields none, it is the second
    rule's list. *)
Lemma include_and_intersection :
  (∀ (rule_name : string) (rule_enabled : bool)
     (rule_parameters : gmap string pyval) (pubs include exclude : list item),
     accumulate
       (Build_SearchRule rule_name INCLUDE AND rule_enabled rule_parameters)
       pubs (include, exclude) =
       (match include with
        | [] => pubs
        | _ => filter (λ pub, match_key pub ∈ match_key <$> pubs) include
        end, exclude))
  ∧ (∀ (cb : bool) (r1 r2 : SearchRule) (items1 items2 : list item)
       (script script1 rest : list reply) (log1 log2 : list event),
       enabled r1 = true → rule_type r1 = INCLUDE → operator r1 = AND →
       enabled r2 = true → rule_type r2 = INCLUDE → operator r2 = AND →
       search_with_params (rule_params r1) cb script
         = (log1, Returned items1 script1) →
       search_with_params (rule_params r2) cb script1
         = (log2, Returned items2 rest) →
       ∃ log,
         rules_loop cb [r1; r2] ([], []) script =
           (log,
            Returned
              (match items1 with
               | [] => items2
               | _ => filter (λ pub, match_key pub ∈ match_key <$> items2)
                             items1
               end, []) rest)).
Proof.
  split.
  - intros. by apply accumulate_and.
  - intros cb r1 r2 items1 items2 script script1 rest log1 log2
      Hen1 Ht1 Ho1 Hen2 Ht2 Ho2 Hs1 Hs2.
    rewrite rules_loop_enabled, Hs1 by done.
    rewrite rules_loop_enabled, Hs2 by done.
    rewrite !accumulate_and by done. cbn [rules_loop].
    unfold mret, io_ret, after. cbn [fst snd].
    by eexists.
Qed.

(** C3. The And step of the code is not the intersection.  The step tests
    whether the include accumulator is empty, not whether the rule is the
    first Include rule: when the first of two Include/And rules yields
    nothing, the accumulator ends as the second rule's list and not as the
    empty intersection; and of three Include/And rules that yield one
    publication each, all different, the third rule's publication is
    returned.  Moreover the step compares
    [pub.get('hash', pub.get('id', ''))]: two publications without a hash
    that share their id and differ in their case number are taken for the
    same one. *)
Theorem and_is_not_the_intersection :
  let script := [ok_page []; ok_page [pub_a]; ok_page []] in
  (search_with_params (rule_params rule_and) false script).2
    = Returned [] [ok_page [pub_a]; ok_page []]
  ∧ (search_with_params (rule_params rule_and') false
       [ok_page [pub_a]; ok_page []]).2 = Returned [pub_a] []
  ∧ (rules_loop false [rule_and; rule_and'] ([], []) script).2
    = Returned ([pub_a], []) []
  ∧ (execute_rules [rule_and; rule_and'] false script).2
    = Returned [pub_a] []
  ∧ spec_intersection [] [pub_a] = []
  ∧ (rules_loop false [rule_and; rule_and'] ([], []) script).2
    ≠ Returned (spec_intersection [] [pub_a], []) []
  ∧ (rules_loop false [rule_and; rule_and'; rule_and] ([], [])
       script_disjoint).2
    = Returned ([pub_c], []) []
  ∧ (execute_rules [rule_and; rule_and'; rule_and] false script_disjoint).2
    = Returned [pub_c] []
  ∧ spec_intersection (spec_intersection [pub_a] [pub_b]) [pub_c] = []
  ∧ accumulate rule_and' [pub_1y] ([pub_1x], []) = ([pub_1x], [])
  ∧ spec_intersection [pub_1x] [pub_1y] = [].
Proof.
  intros script.
  assert ((rules_loop false [rule_and; rule_and'] ([], []) script).2
          = Returned ([pub_a], []) []) as Hrun by by_evaluation.
  split_and!;
    [by_evaluation|by_evaluation|exact Hrun|by_evaluation|by_evaluation|
    |by_evaluation|by_evaluation|by_evaluation|by_evaluation|by_evaluation].
  rewrite Hrun. discriminate.
Qed.

(** ** Instances on the sample data *)

Lemma remove_duplicates_stable_witness :
  spec_identity_key pub_1x' ∈ spec_identity_key <$> [pub_1x]
  ∧ remove_duplicates ([pub_1x] ++ pub_1x' :: [pub_2z])
    = remove_duplicates ([pub_1x] ++ [pub_2z]).
Proof.
  assert (spec_identity_key pub_1x' ∈ spec_identity_key <$> [pub_1x]) as Hkey
    by by_evaluation.
  split; [exact Hkey|].
  destruct (remove_duplicates_stable []) as (_ & _ & _ & _ & _ & Hdrop).
  exact (Hdrop [pub_1x] [pub_2z] pub_1x' Hkey).
Defined.

Lemma search_with_params_pages_witness :
  Forall (λ items : list item, items ≠ []) [[pub_a; pub_b]; [pub_c]]
  ∧ default [] (@None (list item)) = []
  ∧ ∃ log : list event,
      search_with_params (rule_params rule_or) true
        ((ok_page <$> [[pub_a; pub_b]; [pub_c]])
           ++ Response 200 (JsonObject None) :: [ok_page [pub_1x]])
        = (log, Returned (concat [[pub_a; pub_b]; [pub_c]]) [ok_page [pub_1x]])
      ∧ requests_of log =
          (λ n, <["pagina" := PyInt n]>
                  (<["itensPorPagina" := PyInt 50]> (rule_params rule_or)))
            <$> seqZ 1 (Z.of_nat (length [[pub_a; pub_b]; [pub_c]]) + 1)
      ∧ errors_of log = [].
Proof.
  assert (Forall (λ items : list item, items ≠ []) [[pub_a; pub_b]; [pub_c]])
    as Hpages by (repeat constructor; discriminate).
  split; [exact Hpages|]. split; [reflexivity|].
  apply (search_with_params_pages (rule_params rule_or) true
           [[pub_a; pub_b]; [pub_c]] None [ok_page [pub_1x]] Hpages).
  reflexivity.
Defined.

Lemma failure_is_isolated_witness :
  let st := {| publications := [pub_c];
               search_params := page_params (rule_params rule_or') 2 |} in
  let rest := [ok_page [pub_b]; ok_page []] in
  let final :=
    filter (λ pub, match_key pub ∉ match_key <$> [pub_b])
           (remove_duplicates [pub_a; pub_b; pub_c; pub_a]) in
  final = [pub_a; pub_c]
  ∧ (∃ message,
       pagination true (PyStr "Advogado") st
         (Response 500 (JsonObject None) :: rest)
         = ([progress_callback_call "Executando Advogado - Página 2";
             requests_get base_url (page_params (rule_params rule_or') 2) 30;
             st_error message],
            Returned [pub_c] rest)
       ∧ contains message "Advogado")
  ∧ (∃ log message,
       execute_rules ([rule_or] ++ rule_or' :: [rule_exclude]) true
         script_failing = (log, Returned final [])
       ∧ Raw.execute_rules ([rule_or] ++ rule_or' :: [rule_exclude]) true
           (raw_reply <$> script_failing)
         = (log, Raw.Returned (Raw.Obj <$> final) [])
       ∧ message ∈ errors_of log
       ∧ contains message "Advogado").
Proof.
  intros st rest final. split; [by_evaluation|].
  apply (failure_is_isolated true (PyStr "Advogado") st
           (Response 500 (JsonObject None)) rest
           [rule_or] [rule_exclude] rule_or' [[pub_c; pub_a]] script_failing
           (rules_loop true [rule_or] ([], []) script_failing).1
           (rules_loop true [rule_exclude]
              ([pub_a; pub_b; pub_c; pub_a], []) rest).1
           ([pub_a; pub_b], []) [pub_a; pub_b; pub_c; pub_a] [pub_b] []).
  - simpl. split; discriminate.
  - by_evaluation.
  - repeat constructor; discriminate.
  - by_evaluation.
  - by_evaluation.
Defined.

Lemma execute_rules_exclusion_witness :
  (∃ log',
     execute_rules [rule_or; rule_exclude] false script_include_exclude =
       (log',
        Returned (filter (λ pub, match_key pub ∉ match_key <$> [pub_b])
                         (remove_duplicates [pub_a; pub_b; pub_c])) []))
  ∧ (∃ log,
       execute_rules [rule_or; rule_exclude] false script_include_exclude =
         (log, Returned [pub_a; pub_c] [])).
Proof.
  split.
  - apply (proj1 execute_rules_exclusion [rule_or; rule_exclude] false
             script_include_exclude []
             (rules_loop false [rule_or; rule_exclude] ([], [])
                script_include_exclude).1
             [pub_a; pub_b; pub_c] [pub_b]).
    + by_evaluation.
    + discriminate.
  - apply (proj2 execute_rules_exclusion false rule_or rule_exclude
             pub_a pub_b pub_c script_include_exclude
             [ok_page [pub_b]; ok_page []] []
             (search_with_params (rule_params rule_or) false
                script_include_exclude).1
             (search_with_params (rule_params rule_exclude) false
                [ok_page [pub_b]; ok_page []]).1);
      [by_evaluation..| | | | |].
    + by_evaluation.
    + by_evaluation.
    + by_evaluation.
    + by_evaluation.
    + by_evaluation.
Defined.

Lemma include_and_intersection_witness :
  accumulate (Build_SearchRule "Parte" INCLUDE AND true ∅)
    [pub_b; pub_c] ([pub_a; pub_b], []) =
    (filter (λ pub, match_key pub ∈ match_key <$> [pub_b; pub_c])
            [pub_a; pub_b], [])
  ∧ ∃ log,
      rules_loop false [rule_and; rule_and'] ([], []) script_and_and =
        (log,
         Returned (filter (λ pub, match_key pub ∈ match_key <$> [pub_b; pub_c])
                          [pub_a; pub_b], []) []).
Proof.
  split.
  - apply (proj1 include_and_intersection).
  - apply (proj2 include_and_intersection false rule_and rule_and'
             [pub_a; pub_b] [pub_b; pub_c] script_and_and
             [ok_page [pub_b; pub_c]; ok_page []] []
             (search_with_params (rule_params rule_and) false
                script_and_and).1
             (search_with_params (rule_params rule_and') false
                [ok_page [pub_b; pub_c]; ok_page []]).1);
      by_evaluation.
Defined.


(** * Further properties of the code *)

(** ** The paginated executor on any script *)

Section any_script.
Context (progress_callback : bool) (rule_name : pyval).
Implicit Types (st : loop_state) (r : reply) (script : list reply).

Lemma is_page_inv r :
  is_page r = true → r = ok_page (fetched r) ∧ fetched r ≠ [].
Proof.
  destruct r as [e|status_code [e|items]]; simpl; try done.
  destruct (status_code =? 200) eqn:E; [|done].
  apply Z.eqb_eq in E as ->. destruct items as [[|pub items]|]; try done.
Qed.

Lemma is_retry_inv r : is_retry r = true → ∃ json, r = Response 429 json.
Proof.
  destruct r as [e|status_code json]; simpl; [done|].
  intros ->%Z.eqb_eq. by exists json.
Qed.

Lemma not_continues_inv r :
  continues r = false →
  (∃ last, r = Response 200 (JsonObject last) ∧ default [] last = [])
  ∨ is_failure r.
Proof.
  unfold continues. intros [Hp Hr]%orb_false_elim.
  destruct r as [e|status_code [e|items]]; simpl in *; [by right| |].
  - right. by intros ->.
  - destruct (status_code =? 200) eqn:E.
    + apply Z.eqb_eq in E as ->. left. exists items. split; [done|].
      by destruct (default [] items).
    + right. apply Z.eqb_neq in E. apply Z.eqb_neq in Hr. done.
Qed.

Lemma iteration_is_page st r :
  is_page r = true →
  iteration progress_callback rule_name st r =
    (Continue,
     {| publications := publications st ++ fetched r;
        search_params := alter py_succ "pagina" (search_params st) |},
     announce progress_callback rule_name st
       ++ [request st; time_sleep (1 # 2)]).
Proof.
  intros [Hr Hne]%is_page_inv. rewrite Hr at 1. by apply iteration_page.
Qed.

Lemma iteration_is_retry st r :
  is_retry r = true →
  iteration progress_callback rule_name st r =
    (Continue, st, retry_log progress_callback rule_name st).
Proof. intros [json ->]%is_retry_inv. apply iteration_429. Qed.

Lemma iteration_stops st r :
  continues r = false →
  iteration progress_callback rule_name st r =
    (Break, st,
     announce progress_callback rule_name st
       ++ request st :: (st_error <$> error_shown rule_name r)).
Proof.
  intros H. pose proof H as [Hp Hr]%orb_false_elim.
  destruct r as [e|status_code [e|items]]; simpl in *; [done| |].
  - unfold iteration. simpl. rewrite Hr. by destruct (status_code =? 200).
  - unfold iteration. simpl. rewrite Hr.
    destruct (status_code =? 200); simpl in *; [|done].
    by destruct (default [] items).
Qed.

Lemma sleeps_of_app log1 log2 :
  sleeps_of (log1 ++ log2) = sleeps_of log1 ++ sleeps_of log2.
Proof. apply omap_app. Qed.

Lemma sleeps_of_report cb message : sleeps_of (report cb message) = [].
Proof. by destruct cb. Qed.

Lemma errors_of_st_error (l : list string) : errors_of (st_error <$> l) = l.
Proof. induction l as [|m l IH]; [done|]. cbn. f_equal. exact IH. Qed.

Lemma sleeps_of_st_error (l : list string) : sleeps_of (st_error <$> l) = [].
Proof. by induction l. Qed.

Lemma requests_of_st_error (l : list string) : requests_of (st_error <$> l) = [].
Proof. by induction l. Qed.

(** The three kinds of turn, with what each leaves in the log. *)
Lemma iteration_turn st r :
  ∃ st' log,
    iteration progress_callback rule_name st r
      = (if continues r then Continue else Break, st', log)
    ∧ publications st' =
        publications st ++ (if continues r then fetched r else [])
    ∧ search_params st' =
        (if is_page r then alter py_succ "pagina" (search_params st)
         else search_params st)
    ∧ requests_of log = [search_params st]
    ∧ sleeps_of log = (if continues r then [sleep_after r] else [])
    ∧ errors_of log = (if continues r then [] else error_shown rule_name r).
Proof.
  assert (requests_of (announce progress_callback rule_name st) = []) as Ha
    by apply requests_of_report.
  assert (sleeps_of (announce progress_callback rule_name st) = []) as Hb
    by apply sleeps_of_report.
  assert (errors_of (announce progress_callback rule_name st) = []) as Hc
    by apply errors_of_report.
  unfold continues, sleep_after.
  destruct (is_page r) eqn:Hp; [|destruct (is_retry r) eqn:Hr]; simpl.
  - rewrite iteration_is_page by done. eexists _, _. split; [done|]. simpl.
    rewrite requests_of_app, sleeps_of_app, errors_of_app, Ha, Hb, Hc. done.
  - rewrite iteration_is_retry by done. eexists _, _. split; [done|].
    unfold retry_log.
    rewrite !requests_of_app, !sleeps_of_app, !errors_of_app, Ha, Hb, Hc.
    rewrite requests_of_report, sleeps_of_report, errors_of_report.
    destruct (is_retry_inv r Hr) as [json ->].
    destruct json; simpl; by rewrite app_nil_r.
  - rewrite iteration_stops by (unfold continues; by rewrite Hp, Hr).
    eexists _, _. split; [done|]. rewrite app_nil_r.
    rewrite requests_of_app, sleeps_of_app, errors_of_app, Ha, Hb, Hc. simpl.
    by rewrite requests_of_st_error, sleeps_of_st_error, errors_of_st_error.
Qed.

Lemma pagination_stop st r rest :
  continues r = false →
  pagination progress_callback rule_name st (r :: rest) =
    (announce progress_callback rule_name st
       ++ request st :: (st_error <$> error_shown rule_name r),
     Returned (publications st) rest).
Proof. intros H. cbn [pagination]. by rewrite iteration_stops. Qed.

Lemma pagination_continues st r script :
  continues r = true →
  ∃ st' log,
    pagination progress_callback rule_name st (r :: script) =
      after log (pagination progress_callback rule_name st' script)
    ∧ publications st' = publications st ++ fetched r
    ∧ search_params st' =
        (if is_page r then alter py_succ "pagina" (search_params st)
         else search_params st)
    ∧ requests_of log = [search_params st]
    ∧ sleeps_of log = [sleep_after r]
    ∧ errors_of log = [].
Proof.
  intros H. destruct (iteration_turn st r) as (st' & log & Hit & Hrest).
  rewrite H in Hit, Hrest. exists st', log. split; [|exact Hrest].
  cbn [pagination]. rewrite Hit. unfold after. by destruct pagination.
Qed.

Lemma pagination_returns st pre r rest :
  Forall (λ r, continues r = true) pre →
  continues r = false →
  ∃ log,
    pagination progress_callback rule_name st (pre ++ r :: rest) =
      (log, Returned (publications st ++ concat (fetched <$> pre)) rest)
    ∧ sleeps_of log = sleep_after <$> pre
    ∧ errors_of log = error_shown rule_name r.
Proof.
  intros Hpre Hr. revert st. induction Hpre as [|r' pre Hr' _ IH]; intros st.
  - cbn [app]. rewrite pagination_stop by done. eexists. split.
    + simpl. by rewrite app_nil_r.
    + rewrite sleeps_of_app, errors_of_app. unfold announce.
      rewrite sleeps_of_report, errors_of_report. simpl.
      by rewrite sleeps_of_st_error, errors_of_st_error.
  - destruct (pagination_continues st r' (pre ++ r :: rest) Hr')
      as (st' & log & Hrun & Hpubs & _ & _ & Hsl & Herr).
    destruct (IH st') as (log' & Hrun' & Hsl' & Herr').
    rewrite <- app_comm_cons, Hrun, Hrun'. unfold after. simpl.
    eexists. split; [|split].
    + by rewrite Hpubs, <- app_assoc.
    + by rewrite sleeps_of_app, Hsl, Hsl'.
    + by rewrite errors_of_app, Herr, Herr'.
Qed.

Lemma pagination_blocked st script :
  Forall (λ r, continues r = true) script →
  (pagination progress_callback rule_name st script).2 = Blocked.
Proof.
  intros H. revert st. induction H as [|r script Hr _ IH]; intros st; [done|].
  destruct (pagination_continues st r script Hr) as (st' & log & -> & _).
  apply IH.
Qed.

Lemma pagination_blocked_inv st script :
  (pagination progress_callback rule_name st script).2 = Blocked →
  Forall (λ r, continues r = true) script.
Proof.
  revert st. induction script as [|r script IH]; intros st; [by constructor|].
  destruct (continues r) eqn:Hr.
  - destruct (pagination_continues st r script Hr) as (st' & log & -> & _).
    intros H. constructor; [done|]. by apply (IH st').
  - by rewrite pagination_stop.
Qed.

Lemma pagination_page_numbers params script pubs n k p :
  requests_of (pagination progress_callback rule_name
                 {| publications := pubs;
                    search_params := page_params params n |} script).1 !! k
    = Some p →
  p = page_params params
        (n + Z.of_nat (length (filter (λ r, is_page r = true) (take k script)))).
Proof.
  revert pubs n k. induction script as [|r script IH]; intros pubs n k.
  - simpl. unfold announce. rewrite requests_of_app, requests_of_report.
    destruct k; simpl; [|done]. intros [= <-]. by rewrite Z.add_0_r.
  - destruct (continues r) eqn:Hr.
    + destruct (pagination_continues
                  {| publications := pubs;
                     search_params := page_params params n |} r script Hr)
        as ([pubs' sp'] & log & -> & _ & Hsp & Hreq & _).
      unfold after. cbn [fst]. rewrite requests_of_app, Hreq.
      destruct k as [|k]; simpl.
      { intros [= <-]. by rewrite Z.add_0_r. }
      simpl in Hsp. subst sp'. intros Hk.
      rewrite filter_cons. destruct (is_page r) eqn:Hp.
      * rewrite page_params_succ in Hk. apply IH in Hk. subst p.
        rewrite decide_True by done. f_equal. simpl. lia.
      * apply IH in Hk. subst p. by rewrite decide_False by done.
    + rewrite pagination_stop by done. cbn [fst].
      rewrite requests_of_app. unfold announce. rewrite requests_of_report.
      simpl. rewrite requests_of_st_error.
      destruct k; simpl; [|done]. intros [= <-]. by rewrite Z.add_0_r.
Qed.

Lemma pagination_one_request_per_reply st script :
  match (pagination progress_callback rule_name st script).2 with
  | Returned _ rest =>
      (length (requests_of
                 (pagination progress_callback rule_name st script).1)
         + length rest = length script)%nat
  | Blocked =>
      length (requests_of
                (pagination progress_callback rule_name st script).1)
        = S (length script)
  end.
Proof.
  revert st. induction script as [|r script IH]; intros st.
  - simpl. unfold announce. by rewrite requests_of_app, requests_of_report.
  - destruct (continues r) eqn:Hr.
    + destruct (pagination_continues st r script Hr)
        as (st' & log & -> & _ & _ & Hreq & _).
      unfold after. cbn [fst snd]. rewrite requests_of_app, Hreq.
      specialize (IH st'). destruct (pagination _ _ st' script).2; simpl in *; lia.
    + rewrite pagination_stop by done. cbn [fst snd].
      rewrite requests_of_app. unfold announce. rewrite requests_of_report.
      simpl. rewrite requests_of_st_error. simpl. lia.
Qed.
End any_script.

(** X1. Whatever 429 replies come between the pages, [search_with_params]
    returns, at the first reply the loop does not go on from, the items of
    the non-empty 200 pages before it, in order, and leaves the replies
    after it unread. *)
Theorem search_with_params_returns (params : gmap string pyval)
    (progress_callback : bool) (pre : list reply) (r : reply)
    (rest : list reply) :
  Forall (λ r, continues r = true) pre →
  continues r = false →
  (search_with_params params progress_callback (pre ++ r :: rest)).2
    = Returned (concat (fetched <$> pre)) rest.
Proof.
  intros Hpre Hr. unfold search_with_params.
  edestruct pagination_returns as (log & -> & _); [exact Hpre|exact Hr|].
  done.
Qed.

Lemma search_with_params_returns_witness :
  Forall (λ r, continues r = true) script_pages_and_retry
  ∧ continues reply_503 = false
  ∧ (search_with_params (rule_params rule_or) true
       (script_pages_and_retry ++ reply_503 :: [ok_page [pub_1x]])).2
    = Returned [pub_a; pub_b; pub_c] [ok_page [pub_1x]].
Proof.
  assert (Forall (λ r, continues r = true) script_pages_and_retry) as Hpre
    by (repeat constructor).
  split; [exact Hpre|]. split; [reflexivity|].
  exact (search_with_params_returns (rule_params rule_or) true
           script_pages_and_retry reply_503 [ok_page [pub_1x]] Hpre eq_refl).
Defined.

(** X2. [search_with_params] is still waiting at the end of a script exactly
    when every reply of the script is a 429 or a 200 with a non-empty
    [items] list: it returns as soon as any other reply arrives. *)
Theorem search_with_params_blocked_iff (params : gmap string pyval)
    (progress_callback : bool) (script : list reply) :
  (search_with_params params progress_callback script).2 = Blocked
  ↔ Forall (λ r, continues r = true) script.
Proof.
  unfold search_with_params. split.
  - apply pagination_blocked_inv.
  - apply pagination_blocked.
Qed.

(** X3. The request number [k] (from 0) of [search_with_params] asks for the
    page 1 + the number of non-empty 200 pages among the [k] replies before
    it, with [itensPorPagina = 50]: the counter moves on non-empty pages
    only. *)
Theorem search_with_params_page_numbers (params : gmap string pyval)
    (progress_callback : bool) (script : list reply) (k : nat)
    (p : gmap string pyval) :
  requests_of (search_with_params params progress_callback script).1 !! k
    = Some p →
  p = <["pagina" :=
          PyInt (1 + Z.of_nat (length (filter (λ r, is_page r = true)
                                              (take k script))))]>
        (<["itensPorPagina" := PyInt 50]> params).
Proof. unfold search_with_params. apply pagination_page_numbers. Qed.

Lemma search_with_params_page_numbers_witness :
  requests_of (search_with_params (rule_params rule_or) false
                 script_pages_and_retry).1 !! 2%nat
    = Some (page_params (rule_params rule_or) 2)
  ∧ page_params (rule_params rule_or) 2
    = <["pagina" :=
          PyInt (1 + Z.of_nat (length (filter (λ r, is_page r = true)
                                         (take 2 script_pages_and_retry))))]>
        (<["itensPorPagina" := PyInt 50]> (rule_params rule_or)).
Proof.
  assert (requests_of (search_with_params (rule_params rule_or) false
                         script_pages_and_retry).1 !! 2%nat
          = Some (page_params (rule_params rule_or) 2)) as Hk
    by by_evaluation.
  split; [exact Hk|].
  exact (search_with_params_page_numbers (rule_params rule_or) false
           script_pages_and_retry 2 _ Hk).
Defined.

(** X4. Every reply [search_with_params] reads answers one request, and no
    request is sent once it has returned: when it returns, the requests
    sent are as many as the replies read; when it is still waiting, one
    more than the replies of the script. *)
Theorem search_with_params_one_request_per_reply (params : gmap string pyval)
    (progress_callback : bool) (script : list reply) :
  match (search_with_params params progress_callback script).2 with
  | Returned _ rest =>
      (length (requests_of
                 (search_with_params params progress_callback script).1)
         + length rest = length script)%nat
  | Blocked =>
      length (requests_of
                (search_with_params params progress_callback script).1)
        = S (length script)
  end.
Proof. unfold search_with_params. apply pagination_one_request_per_reply. Qed.

(** X5. The pauses of [search_with_params] are, in order, 0.5 after each
    non-empty page and 10 after each 429, and none after the reply that
    ends the loop. *)
Theorem search_with_params_sleeps (params : gmap string pyval)
    (progress_callback : bool) (pre : list reply) (r : reply)
    (rest : list reply) :
  Forall (λ r, continues r = true) pre →
  continues r = false →
  sleeps_of (search_with_params params progress_callback
               (pre ++ r :: rest)).1
    = (λ r, if is_page r then (1 # 2)%Q else 10%Q) <$> pre.
Proof.
  intros Hpre Hr. unfold search_with_params.
  edestruct pagination_returns as (log & -> & Hsl & _); [exact Hpre|exact Hr|].
  exact Hsl.
Qed.

Lemma search_with_params_sleeps_witness :
  Forall (λ r, continues r = true) script_pages_and_retry
  ∧ continues reply_503 = false
  ∧ sleeps_of (search_with_params (rule_params rule_or) true
                 (script_pages_and_retry ++ reply_503 :: [])).1
    = (λ r, if is_page r then (1 # 2)%Q else 10%Q) <$> script_pages_and_retry.
Proof.
  assert (Forall (λ r, continues r = true) script_pages_and_retry) as Hpre
    by (repeat constructor).
  split; [exact Hpre|]. split; [reflexivity|].
  exact (search_with_params_sleeps (rule_params rule_or) true
           script_pages_and_retry reply_503 [] Hpre eq_refl).
Defined.

(** X6. [search_with_params] shows no error for the replies it goes on from,
    and for the reply that ends the loop: nothing when it is a 200 with an
    empty or absent [items] list; "Erro na requisição <name>: <exception>"
    when the request or the decoding of a 200 raised; "Erro na busca
    <name>: <status>" for any other status.  The name is the entry
    [_rule_name] of the parameters, and "Busca" when there is none. *)
Theorem search_with_params_errors (params : gmap string pyval)
    (progress_callback : bool) (pre : list reply) (r : reply)
    (rest : list reply) :
  Forall (λ r, continues r = true) pre →
  continues r = false →
  errors_of (search_with_params params progress_callback
               (pre ++ r :: rest)).1
    = let name := py_str (default (PyStr "Busca") (params !! "_rule_name")) in
      match r with
      | RequestException e => ["Erro na requisição " +:+ name +:+ ": " +:+ e]
      | Response status_code json =>
          if status_code =? 200 then
            match json with
            | JsonError e => ["Erro na requisição " +:+ name +:+ ": " +:+ e]
            | JsonObject _ => []
            end
          else ["Erro na busca " +:+ name +:+ ": " +:+ pretty status_code]
      end.
Proof.
  intros Hpre Hr. unfold search_with_params.
  edestruct pagination_returns as (log & -> & _ & Herr); [exact Hpre|exact Hr|].
  exact Herr.
Qed.

Lemma search_with_params_errors_witness :
  Forall (λ r, continues r = true) script_pages_and_retry
  ∧ continues reply_503 = false
  ∧ errors_of (search_with_params ∅ false
                 (script_pages_and_retry ++ reply_503 :: [])).1
    = ["Erro na busca Busca: 503"].
Proof.
  assert (Forall (λ r, continues r = true) script_pages_and_retry) as Hpre
    by (repeat constructor).
  split; [exact Hpre|]. split; [reflexivity|].
  exact (search_with_params_errors ∅ false
           script_pages_and_retry reply_503 [] Hpre eq_refl).
Defined.

(** ** The rules of a run *)

Section run.
Implicit Types (rule : SearchRule) (rules : list SearchRule)
  (acc : list item * list item) (script : list reply).

Lemma effects_app log1 log2 : effects (log1 ++ log2) = effects log1 ++ effects log2.
Proof. apply filter_app. Qed.

Lemma effects_report cb message : effects (report cb message) = [].
Proof. by destruct cb. Qed.

Lemma iteration_effects cb rule_name st r :
  iteration false rule_name st r =
    ((iteration cb rule_name st r).1.1, (iteration cb rule_name st r).1.2,
     effects (iteration cb rule_name st r).2).
Proof.
  unfold iteration, announce.
  destruct r as [e|status_code [e|items]]; simpl.
  - by rewrite effects_app, effects_report.
  - destruct (status_code =? 200); [|destruct (status_code =? 429)]; simpl;
      rewrite effects_app, effects_report; try done.
    by destruct cb.
  - destruct (status_code =? 200); [destruct (default [] items)|
                                    destruct (status_code =? 429)]; simpl;
      rewrite effects_app, effects_report; try done.
    by destruct cb.
Qed.

Lemma pagination_effects cb rule_name st script :
  pagination false rule_name st script =
    (effects (pagination cb rule_name st script).1,
     (pagination cb rule_name st script).2).
Proof.
  revert st. induction script as [|r script IH]; intros st.
  - simpl. unfold announce. by rewrite effects_app, effects_report.
  - cbn [pagination]. rewrite (iteration_effects cb).
    destruct (iteration cb rule_name st r) as [[[|] st'] log]; simpl; [done|].
    rewrite IH. destruct (pagination cb rule_name st' script) as [log' o].
    simpl. by rewrite effects_app.
Qed.

Lemma rules_loop_effects cb rules acc script :
  rules_loop false rules acc script =
    (effects (rules_loop cb rules acc script).1,
     (rules_loop cb rules acc script).2).
Proof.
  revert acc script. induction rules as [|rule rules IH]; intros acc script.
  - done.
  - destruct (enabled rule) eqn:Hen.
    + rewrite !rules_loop_enabled by done. unfold search_with_params.
      rewrite (pagination_effects cb).
      destruct (pagination cb _ _ script) as [log [pubs rest|]]; simpl.
      * rewrite IH. unfold after. simpl.
        by rewrite !effects_app, effects_report.
      * unfold after. simpl. by rewrite effects_app, effects_report.
    + rewrite !rules_loop_disabled by done. apply IH.
Qed.

Lemma rules_loop_filter_enabled cb rules acc script :
  rules_loop cb rules acc script =
    rules_loop cb (filter (λ rule, enabled rule = true) rules) acc script.
Proof.
  revert acc script. induction rules as [|rule rules IH]; intros acc script.
  - done.
  - rewrite filter_cons. destruct (enabled rule) eqn:Hen.
    + rewrite decide_True by done. rewrite !rules_loop_enabled by done.
      destruct search_with_params as [log [pubs rest|]]; [|done].
      by rewrite IH.
    + rewrite decide_False by done. rewrite rules_loop_disabled by done.
      apply IH.
Qed.

Lemma rules_loop_returns_inv cb rule rules acc script acc' rest :
  enabled rule = true →
  (rules_loop cb (rule :: rules) acc script).2 = Returned acc' rest →
  ∃ log pubs script',
    search_with_params (rule_params rule) cb script
      = (log, Returned pubs script')
    ∧ (rules_loop cb rules (accumulate rule pubs acc) script').2
      = Returned acc' rest.
Proof.
  intros Hen. rewrite rules_loop_enabled by done.
  destruct search_with_params as [log [pubs script'|]]; [|done].
  intros H. by exists log, pubs, script'.
Qed.

Lemma rules_loop_fetches cb rules acc script acc' rest :
  (rules_loop cb rules acc script).2 = Returned acc' rest
  ↔ ∃ fetched, fetches cb rules script fetched rest ∧ acc' = fuse fetched acc.
Proof.
  split.
  - revert acc script. induction rules as [|rule rules IH]; intros acc script.
    + intros [= <- <-]. exists []. split; [constructor|done].
    + destruct (enabled rule) eqn:Hen.
      * intros (log & pubs & script' & Hs & Hloop)%rules_loop_returns_inv;
          [|done].
        destruct (IH _ _ Hloop) as (fetched & Hf & ->).
        exists ((rule, pubs) :: fetched). split; [|done].
        by econstructor.
      * rewrite rules_loop_disabled by done.
        intros (fetched & Hf & ->)%IH. exists fetched. split; [|done].
        by constructor.
  - intros (fetched & Hf & ->). revert acc.
    induction Hf as [script|rule rules script fetched rest Hen _ IH
                    |rule rules script log pubs script' fetched rest Hen Hs _ IH];
      intros acc.
    + done.
    + rewrite rules_loop_disabled by done. apply IH.
    + rewrite rules_loop_enabled, Hs by done. unfold after. cbn [snd].
      apply IH.
Qed.

Lemma execute_rules_returns cb rules script final rest :
  (execute_rules rules cb script).2 = Returned final rest
  ↔ ∃ acc, (rules_loop cb rules ([], []) script).2 = Returned acc rest
           ∧ final = (finish cb acc).2.
Proof.
  rewrite execute_rules_unfold.
  destruct (rules_loop cb rules ([], []) script) as [log [acc rest'|]]; simpl.
  - split.
    + intros [= <- <-]. by exists acc.
    + by intros (acc' & [= <- <-] & ->).
  - split; [done|]. by intros (? & ? & _).
Qed.

Lemma accumulate_exclude rule pubs inc exc :
  rule_type rule = EXCLUDE →
  accumulate rule pubs (inc, exc) = (inc, exc ++ pubs).
Proof. intros H. unfold accumulate. by rewrite H. Qed.

Lemma accumulate_include rule pubs inc exc :
  rule_type rule = INCLUDE →
  accumulate rule pubs (inc, exc)
    = ((accumulate rule pubs (inc, [])).1, exc).
Proof.
  intros H. unfold accumulate. rewrite H.
  by destruct (operator rule), inc.
Qed.

Lemma fuse_cons rule pubs fetched acc :
  fuse ((rule, pubs) :: fetched) acc = fuse fetched (accumulate rule pubs acc).
Proof. done. Qed.

Lemma fuse_parts fetched inc exc :
  (fuse fetched (inc, exc)).2
    = exc ++ concat ((filter (λ rp, rule_type rp.1 = EXCLUDE) fetched).*2)
  ∧ (fuse fetched (inc, exc)).1
    = (fuse (filter (λ rp, rule_type rp.1 = INCLUDE) fetched) (inc, [])).1.
Proof.
  revert inc exc.
  induction fetched as [|[rule pubs] fetched IH]; intros inc exc.
  - simpl. by rewrite app_nil_r.
  - rewrite fuse_cons, !filter_cons. cbn [fst].
    destruct (rule_type rule) eqn:Ht.
    + rewrite decide_False, decide_True by done.
      rewrite fuse_cons, accumulate_include by done.
      rewrite (accumulate_include rule pubs inc []) by done.
      apply IH.
    + rewrite decide_True, decide_False by done.
      rewrite accumulate_exclude by done.
      destruct (IH inc (exc ++ pubs)) as [IH2 IH1].
      rewrite IH1, IH2. rewrite fmap_cons. simpl. by rewrite <- app_assoc.
Qed.
End run.

(** X7. The progress callback changes nothing but its own calls: run
    without one, [execute_rules] returns the same list, leaves the same
    replies unread, and performs the same requests, pauses and error
    displays in the same order. *)
Theorem progress_callback_immaterial (rules : list SearchRule)
    (progress_callback : bool) (script : list reply) :
  execute_rules rules false script =
    (effects (execute_rules rules progress_callback script).1,
     (execute_rules rules progress_callback script).2).
Proof.
  rewrite !execute_rules_unfold. rewrite (rules_loop_effects progress_callback).
  destruct (rules_loop progress_callback rules ([], []) script)
    as [log [[inc exc] rest|]]; simpl; [|done].
  rewrite effects_app. f_equal.
  - f_equal. unfold finish.
    destruct exc; simpl; by rewrite ?effects_app, !effects_report.
  - unfold finish. by destruct exc.
Qed.

(** X8. Disabled rules are skipped: [execute_rules] does on any script
    exactly what it does for the list without them. *)
Theorem execute_rules_skips_disabled (rules : list SearchRule)
    (progress_callback : bool) (script : list reply) :
  execute_rules rules progress_callback script =
    execute_rules (filter (λ rule, enabled rule = true) rules)
      progress_callback script.
Proof.
  rewrite !execute_rules_unfold.
  by rewrite <- rules_loop_filter_enabled.
Qed.

(** X9. With no rule, or none that is enabled, [execute_rules] returns the
    empty list at once: it sends no request and reads no reply. *)
Theorem execute_rules_nothing_enabled (rules : list SearchRule)
    (progress_callback : bool) (script : list reply) :
  Forall (λ rule, enabled rule = false) rules →
  execute_rules rules progress_callback script =
    (report progress_callback "Removendo duplicatas das inclusões...",
     Returned [] script).
Proof.
  intros H. rewrite execute_rules_unfold, rules_loop_filter_enabled.
  replace (filter (λ rule, enabled rule = true) rules) with (@nil SearchRule).
  - done.
  - symmetry. induction H as [|rule rules Hen _ IH]; [done|].
    rewrite filter_cons, decide_False; [done|]. by rewrite Hen.
Qed.

Lemma execute_rules_nothing_enabled_witness :
  Forall (λ rule, enabled rule = false) [rule_disabled]
  ∧ execute_rules [rule_disabled] true script_include_exclude =
      (report true "Removendo duplicatas das inclusões...",
       Returned [] script_include_exclude).
Proof.
  assert (Forall (λ rule, enabled rule = false) [rule_disabled]) as H
    by (repeat constructor).
  split; [exact H|].
  exact (execute_rules_nothing_enabled [rule_disabled] true
           script_include_exclude H).
Defined.

(** X10. When no enabled rule is an Include rule, whatever [execute_rules]
    returns is empty: Exclude rules alone have nothing to exclude from. *)
Theorem execute_rules_without_include (rules : list SearchRule)
    (progress_callback : bool) (script rest : list reply)
    (final : list item) :
  Forall (λ rule, enabled rule = true → rule_type rule = EXCLUDE) rules →
  (execute_rules rules progress_callback script).2 = Returned final rest →
  final = [].
Proof.
  intros Hrules (acc & Hloop & ->)%execute_rules_returns.
  apply rules_loop_fetches in Hloop as (fetched & Hf & ->).
  assert (Forall (λ rp, rule_type rp.1 = EXCLUDE) fetched) as Hex.
  { clear -Hrules Hf.
    induction Hf as [script|rule rules script fetched rest Hen _ IH
                    |rule rules script log pubs script' fetched rest Hen Hs _ IH].
    - constructor.
    - apply IH. by inversion Hrules.
    - inversion Hrules as [|?? Hr Hrs]; subst.
      constructor; [by apply Hr|by apply IH]. }
  destruct (fuse_parts fetched [] []) as [_ H1].
  replace (filter (λ rp, rule_type rp.1 = INCLUDE) fetched)
    with (@nil (SearchRule * list item)) in H1.
  - destruct (fuse fetched ([], [])) as [inc exc]. simpl in H1. subst inc.
    unfold finish. by destruct exc.
  - symmetry. clear -Hex. induction Hex as [|rp fetched Hrp _ IH]; [done|].
    rewrite filter_cons, decide_False; [done|]. by rewrite Hrp.
Qed.

Lemma execute_rules_without_include_witness :
  Forall (λ rule, enabled rule = true → rule_type rule = EXCLUDE)
    [rule_disabled; rule_exclude]
  ∧ (execute_rules [rule_disabled; rule_exclude] false
       [ok_page [pub_b]; ok_page []]).2
    = Returned [] []
  ∧ @nil item = [].
Proof.
  assert (Forall (λ rule, enabled rule = true → rule_type rule = EXCLUDE)
            [rule_disabled; rule_exclude]) as H.
  { repeat constructor. intros [=]. }
  assert ((execute_rules [rule_disabled; rule_exclude] false
             [ok_page [pub_b]; ok_page []]).2 = Returned [] []) as Hrun
    by by_evaluation.
  split; [exact H|]. split; [exact Hrun|].
  exact (execute_rules_without_include [rule_disabled; rule_exclude] false
           [ok_page [pub_b]; ok_page []] [] [] H Hrun).
Defined.

(** X11. [execute_rules] returns a list exactly when each enabled rule, run
    in turn on what the rule before it left of the script, returns one; the
    list returned is then the deduplicated and exclusion-filtered fusion,
    by [accumulate] in the order of the rules, of those lists. *)
Theorem execute_rules_is_fuse_of_fetches (rules : list SearchRule)
    (progress_callback : bool) (script rest : list reply)
    (final : list item) :
  (execute_rules rules progress_callback script).2 = Returned final rest
  ↔ ∃ fetched : list (SearchRule * list item),
      fetches progress_callback rules script fetched rest
      ∧ final =
          (finish progress_callback
             (fold_left (λ acc rp, accumulate rp.1 rp.2 acc) fetched ([], []))).2.
Proof.
  rewrite execute_rules_returns. split.
  - intros (acc & (fetched & Hf & ->)%rules_loop_fetches & ->).
    by exists fetched.
  - intros (fetched & Hf & ->). exists (fuse fetched ([], [])).
    split; [|done]. apply rules_loop_fetches. by exists fetched.
Qed.

(** X12. In the fusion of what the rules fetched, the exclude accumulator
    is the concatenation, in order, of the lists of the Exclude rules,
    whatever their operator and their place among the other rules, and the
    include accumulator is what the Include rules alone would give. *)
Theorem exclude_rules_only_exclude (fetched : list (SearchRule * list item))
    (include exclude : list item) :
  (fold_left (λ acc rp, accumulate rp.1 rp.2 acc) fetched (include, exclude)).2
    = exclude
        ++ concat ((filter (λ rp, rule_type rp.1 = EXCLUDE) fetched).*2)
  ∧ (fold_left (λ acc rp, accumulate rp.1 rp.2 acc) fetched
       (include, exclude)).1
    = (fold_left (λ acc rp, accumulate rp.1 rp.2 acc)
         (filter (λ rp, rule_type rp.1 = INCLUDE) fetched) (include, [])).1.
Proof. apply fuse_parts. Qed.

(** X13. Include rules with the operator Or concatenate: the include
    accumulator grows by the lists they fetch, in the order of the
    rules. *)
Theorem or_rules_concatenate (fetched : list (SearchRule * list item))
    (include exclude : list item) :
  Forall (λ rp, rule_type rp.1 = INCLUDE ∧ operator rp.1 = OR) fetched →
  fold_left (λ acc rp, accumulate rp.1 rp.2 acc) fetched (include, exclude)
    = (include ++ concat fetched.*2, exclude).
Proof.
  intros H. revert include.
  induction H as [|[rule pubs] fetched [Ht Ho] _ IH]; intros include.
  - simpl. by rewrite app_nil_r.
  - cbn [fold_left fst snd]. unfold accumulate at 2. simpl in Ht, Ho.
    rewrite Ht, Ho, IH. rewrite fmap_cons. simpl. by rewrite <- app_assoc.
Qed.

Lemma or_rules_concatenate_witness :
  Forall (λ rp : SearchRule * list item,
            rule_type rp.1 = INCLUDE ∧ operator rp.1 = OR)
    [(rule_or, [pub_a; pub_b]); (rule_or, [pub_b; pub_c])]
  ∧ fold_left (λ acc rp, accumulate rp.1 rp.2 acc)
      [(rule_or, [pub_a; pub_b]); (rule_or, [pub_b; pub_c])] ([pub_1x], [])
    = ([pub_1x] ++ concat [(rule_or, [pub_a; pub_b]);
                           (rule_or, [pub_b; pub_c])].*2, []).
Proof.
  assert (Forall (λ rp : SearchRule * list item,
                    rule_type rp.1 = INCLUDE ∧ operator rp.1 = OR)
            [(rule_or, [pub_a; pub_b]); (rule_or, [pub_b; pub_c])]) as H
    by (repeat constructor).
  split; [exact H|].
  exact (or_rules_concatenate _ [pub_1x] [] H).
Defined.

Section provenance.
Implicit Types (pub : item) (r : reply) (script : list reply).

Lemma fetched_elem_is_page pub r : pub ∈ fetched r → is_page r = true.
Proof.
  destruct r as [e|status_code [e|items]]; simpl; try by intros ?%elem_of_nil.
  destruct (status_code =? 200); [|by intros ?%elem_of_nil]. simpl.
  destruct (default [] items); [by intros ?%elem_of_nil|done].
Qed.

Lemma pagination_provenance cb rule_name st script pubs rest :
  (pagination cb rule_name st script).2 = Returned pubs rest →
  rest `suffix_of` script
  ∧ ∀ pub, pub ∈ pubs →
      pub ∈ publications st ∨ ∃ r, r ∈ script ∧ pub ∈ fetched r.
Proof.
  revert st. induction script as [|r script IH]; intros st; [done|].
  destruct (continues r) eqn:Hr.
  - destruct (pagination_continues cb rule_name st r script Hr)
      as (st' & log & -> & Hpubs & _).
    unfold after. cbn [snd]. intros [Hsuf Hin]%IH. split.
    + by apply suffix_cons_r.
    + intros pub [Hst|(r' & Hr' & Hf)]%Hin.
      * rewrite Hpubs in Hst. apply elem_of_app in Hst as [?|?]; [by left|].
        right. exists r. split; [left|done].
      * right. exists r'. split; [by right|done].
  - rewrite pagination_stop by done. intros [= <- <-]. split.
    + apply suffix_cons_r. done.
    + intros pub ?. by left.
Qed.

Lemma fetches_provenance cb rules script got rest :
  fetches cb rules script got rest →
  rest `suffix_of` script
  ∧ ∀ rp pub, rp ∈ got → pub ∈ rp.2 →
      ∃ r, r ∈ script ∧ pub ∈ fetched r.
Proof.
  induction 1 as [script|rule rules script got rest Hen _ IH
                 |rule rules script log pubs script' got rest Hen Hs _ IH].
  - split; [done|]. by intros ?? ?%elem_of_nil.
  - done.
  - destruct IH as [Hsuf IH].
    apply (f_equal snd) in Hs. simpl in Hs.
    apply pagination_provenance in Hs as [Hsuf' Hin]. split.
    + by etrans.
    + intros rp pub [->|Hrp]%elem_of_cons Hpub.
      * destruct (Hin pub Hpub) as [?%elem_of_nil|?]; done.
      * destruct (IH rp pub Hrp Hpub) as (r & Hr & Hf).
        exists r. split; [|done]. by eapply elem_of_suffix.
Qed.

Lemma accumulate_provenance rule pubs acc pub :
  pub ∈ (accumulate rule pubs acc).1 → pub ∈ acc.1 ∨ pub ∈ pubs.
Proof.
  destruct acc as [inc exc]. unfold accumulate.
  destruct (rule_type rule); [destruct (operator rule)|]; simpl.
  - destruct inc as [|p inc]; simpl; [by right|].
    intros [_ ?]%list_elem_of_filter. by left.
  - intros [?|?]%elem_of_app; [by left|by right].
  - by left.
Qed.

Lemma fuse_provenance fetched acc pub :
  pub ∈ (fuse fetched acc).1 →
  pub ∈ acc.1 ∨ ∃ rp, rp ∈ fetched ∧ pub ∈ rp.2.
Proof.
  revert acc. induction fetched as [|[rule pubs] fetched IH]; intros acc.
  - by left.
  - rewrite fuse_cons. intros [H|(rp & Hrp & Hpub)]%IH.
    + apply accumulate_provenance in H as [?|?]; [by left|].
      right. exists (rule, pubs). split; [left|done].
    + right. exists rp. split; [by right|done].
Qed.

Lemma finish_sublist cb inc exc :
  (finish cb (inc, exc)).2 `sublist_of` remove_duplicates inc.
Proof. unfold finish. destruct exc; simpl; [done|]. apply sublist_filter. Qed.
End provenance.

(** X14. The list [execute_rules] returns holds no two publications with the
    same deduplication key, whether or not exclusions were applied. *)
Theorem execute_rules_no_duplicates (rules : list SearchRule)
    (progress_callback : bool) (script rest : list reply)
    (final : list item) :
  (execute_rules rules progress_callback script).2 = Returned final rest →
  NoDup (dedup_key <$> final).
Proof.
  intros ([inc exc] & _ & ->)%execute_rules_returns.
  eapply sublist_NoDup; [|apply fmap_sublist, finish_sublist].
  rewrite remove_duplicates_first_occurrences. apply first_occurrences_NoDup.
Qed.

Lemma execute_rules_no_duplicates_witness :
  (execute_rules [rule_or; rule_exclude] false script_include_exclude).2
    = Returned [pub_a; pub_c] []
  ∧ NoDup (dedup_key <$> [pub_a; pub_c]).
Proof.
  assert ((execute_rules [rule_or; rule_exclude] false
             script_include_exclude).2 = Returned [pub_a; pub_c] []) as Hrun
    by by_evaluation.
  split; [exact Hrun|].
  exact (execute_rules_no_duplicates _ _ _ _ _ Hrun).
Defined.

(** X15. [execute_rules] returns nothing it did not fetch: every publication
    of the list it returns is an item of a non-empty 200 page of the
    script. *)
Theorem execute_rules_returns_fetched_items (rules : list SearchRule)
    (progress_callback : bool) (script rest : list reply)
    (final : list item) (pub : item) :
  (execute_rules rules progress_callback script).2 = Returned final rest →
  pub ∈ final →
  ∃ r, r ∈ script ∧ is_page r = true ∧ pub ∈ fetched r.
Proof.
  intros (acc & (got & Hf & ->)%rules_loop_fetches & ->)%execute_rules_returns
    Hpub.
  destruct (fuse got ([], [])) as [inc exc] eqn:Hfuse.
  eapply elem_of_sublist in Hpub; [|apply finish_sublist].
  eapply elem_of_sublist in Hpub;
    [|rewrite remove_duplicates_first_occurrences;
      apply first_occurrences_sublist].
  assert (pub ∈ (fuse got ([], [])).1) as Hin by by rewrite Hfuse.
  apply fuse_provenance in Hin as [?%elem_of_nil|(rp & Hrp & Hin)]; [done|].
  destruct (fetches_provenance _ _ _ _ _ Hf) as [_ Hprov].
  destruct (Hprov rp pub Hrp Hin) as (r & Hr & Hfr).
  exists r. split; [done|]. split; [|done]. by eapply fetched_elem_is_page.
Qed.

Lemma execute_rules_returns_fetched_items_witness :
  (execute_rules [rule_or; rule_exclude] false script_include_exclude).2
    = Returned [pub_a; pub_c] []
  ∧ pub_c ∈ [pub_a; pub_c]
  ∧ ∃ r, r ∈ script_include_exclude ∧ is_page r = true ∧ pub_c ∈ fetched r.
Proof.
  assert ((execute_rules [rule_or; rule_exclude] false
             script_include_exclude).2 = Returned [pub_a; pub_c] []) as Hrun
    by by_evaluation.
  assert (pub_c ∈ [pub_a; pub_c]) as Hin by (right; left).
  split; [exact Hrun|]. split; [exact Hin|].
  exact (execute_rules_returns_fetched_items _ _ _ _ _ _ Hrun Hin).
Defined.

(** ** More on deduplication *)

(** X16. [remove_duplicates] leaves a list as it is exactly when no two of
    its items have the same deduplication key. *)
Theorem remove_duplicates_fixed_points (l : list item) :
  remove_duplicates l = l ↔ NoDup (dedup_key <$> l).
Proof.
  split.
  - intros H. rewrite <- H, remove_duplicates_first_occurrences.
    apply first_occurrences_NoDup.
  - apply remove_duplicates_NoDup_id.
Qed.

(** X17. Deduplicating a concatenation keeps the survivors of the first
    list and, after them, the survivors of the second whose key no item of
    the first has: what an earlier rule fetched wins over what a later one
    fetched. *)
Theorem remove_duplicates_app (l1 l2 : list item) :
  remove_duplicates (l1 ++ l2) =
    remove_duplicates l1
      ++ filter (λ pub, dedup_key pub ∉ dedup_key <$> l1)
                (remove_duplicates l2).
Proof.
  rewrite !remove_duplicates_first_occurrences, first_occurrences_app.
  f_equal. rewrite first_occurrences_filter.
  apply list_filter_iff. intros pub. set_solver.
Qed.

(** X18. [remove_duplicates] returns as many publications as the input has
    different deduplication keys. *)
Theorem remove_duplicates_length (l : list item) :
  length (remove_duplicates l)
    = size (list_to_set (dedup_key <$> l) : gset pyval).
Proof.
  pose proof (first_occurrences_keys ∅ l) as Hkeys.
  pose proof (first_occurrences_NoDup ∅ l) as Hnd.
  rewrite remove_duplicates_first_occurrences.
  rewrite <- (length_fmap dedup_key).
  rewrite <- (size_list_to_set (C := gset pyval)) by done.
  f_equal. set_solver.
Qed.

(** X19. Publications with nothing to tell them by (no truthy hash, no id,
    no case number) all get the key "_": of a list of such publications
    [remove_duplicates] keeps the first only. *)
Theorem remove_duplicates_unidentified (pub : item) (l : list item) :
  Forall unidentified (pub :: l) →
  remove_duplicates (pub :: l) = [pub].
Proof.
  intros H.
  assert (∀ p, unidentified p → dedup_key p = PyStr "_") as Hkey.
  { intros p (Hh & Hid & Hnum). unfold dedup_key, get in *.
    by rewrite Hh, Hid, Hnum. }
  rewrite remove_duplicates_first_occurrences.
  inversion H as [|?? Hpub Hl]; subst. simpl.
  rewrite decide_False by set_solver. f_equal.
  rewrite (Hkey pub Hpub). clear H.
  induction Hl as [|p l Hp _ IH]; [done|]. simpl.
  rewrite (Hkey p Hp). rewrite decide_True by set_solver. done.
Qed.

Lemma remove_duplicates_unidentified_witness :
  Forall unidentified
    [({[ "texto" := PyStr "a" ]} : item);
     {[ "hash" := PyStr ""; "texto" := PyStr "b" ]}]
  ∧ remove_duplicates
      [({[ "texto" := PyStr "a" ]} : item);
       {[ "hash" := PyStr ""; "texto" := PyStr "b" ]}]
    = [{[ "texto" := PyStr "a" ]}].
Proof.
  assert (Forall unidentified
            [({[ "texto" := PyStr "a" ]} : item);
             {[ "hash" := PyStr ""; "texto" := PyStr "b" ]}]) as H.
  { repeat constructor; by_evaluation. }
  split; [exact H|].
  exact (remove_duplicates_unidentified _ _ H).
Defined.

(** X20. An excluded publication with neither hash nor id has the empty
    string for key, and so has every included publication with neither:
    one of them among the exclusions removes all of them from the
    result. *)
Theorem exclusion_of_keyless (progress_callback : bool)
    (include exclude : list item) (excluded pub : item) :
  excluded ∈ exclude →
  excluded !! "hash" = None → excluded !! "id" = None →
  pub !! "hash" = None → pub !! "id" = None →
  pub ∉ (finish progress_callback (include, exclude)).2.
Proof.
  intros Hex Hh Hid Hph Hpid Hin.
  rewrite finish_exclusion in Hin by (by intros ->; apply elem_of_nil in Hex).
  apply list_elem_of_filter in Hin as [Hkey _]. apply Hkey.
  assert (∀ p : item, p !! "hash" = None → p !! "id" = None →
                      match_key p = PyStr "") as Hk.
  { intros p H1 H2. unfold match_key, hash_or_id, get. by rewrite H1, H2. }
  rewrite (Hk pub), <- (Hk excluded) by done.
  by apply (list_elem_of_fmap_2 match_key).
Qed.

Lemma exclusion_of_keyless_witness :
  let keyless1 : item := {[ "texto" := PyStr "a" ]} in
  let keyless2 : item := {[ "texto" := PyStr "b" ]} in
  keyless2 ∈ [pub_b; keyless2]
  ∧ keyless2 !! "hash" = None ∧ keyless2 !! "id" = None
  ∧ keyless1 !! "hash" = None ∧ keyless1 !! "id" = None
  ∧ keyless1 ∉ (finish false ([pub_a; keyless1], [pub_b; keyless2])).2.
Proof.
  intros keyless1 keyless2.
  assert (keyless2 ∈ [pub_b; keyless2]) as Hex by (right; left).
  split; [exact Hex|]. split_and!; [by_evaluation..|].
  apply (exclusion_of_keyless false [pub_a; keyless1] [pub_b; keyless2]
           keyless2 keyless1 Hex); by_evaluation.
Defined.

(** ** More on rule construction *)

(** X21. Cleaning the parameters once is enough: [__post_init__] applied to
    a rule it has already cleaned changes nothing, and what it keeps is
    part of what it was given. *)
Theorem post_init_idempotent (rule : SearchRule) :
  __post_init__ (__post_init__ rule) = __post_init__ rule
  ∧ parameters (__post_init__ rule) ⊆ parameters rule.
Proof.
  split.
  - unfold __post_init__. simpl. f_equal.
    apply map_eq. intros k. apply option_eq. intros v.
    rewrite !map_lookup_filter_Some. naive_solver.
  - apply map_filter_subseteq.
Qed.

(** ** The rule form *)

Section form.
Context {date : Type} (strftime : date → string).
Implicit Types (w : form_values date) (m : gmap string pyval).

Lemma set_text_empty key value m :
  set_text key value m = ∅ ↔ value = "" ∧ m = ∅.
Proof.
  unfold set_text. destruct (String.eqb value "") eqn:E.
  - apply String.eqb_eq in E. naive_solver.
  - apply String.eqb_neq in E. split; [|naive_solver].
    intros H. by apply insert_non_empty in H.
Qed.

Lemma set_number_empty key value m :
  set_number key value m = ∅ ↔ value ≤ 0 ∧ m = ∅.
Proof.
  unfold set_number. destruct (0 <? value) eqn:E.
  - apply Z.ltb_lt in E. split; [|lia].
    intros H. by apply insert_non_empty in H.
  - apply Z.ltb_ge in E. naive_solver.
Qed.

Lemma set_date_empty key value m :
  set_date strftime key value m = ∅ ↔ value = None ∧ m = ∅.
Proof.
  destruct value as [d|]; simpl; [|naive_solver].
  split; [|naive_solver]. intros H. by apply insert_non_empty in H.
Qed.

Lemma set_text_lookup_ne key value m k :
  key ≠ k → set_text key value m !! k = m !! k.
Proof.
  intros H. unfold set_text. destruct (String.eqb value ""); [done|].
  by rewrite lookup_insert_ne.
Qed.

Lemma set_number_lookup_ne key value m k :
  key ≠ k → set_number key value m !! k = m !! k.
Proof.
  intros H. unfold set_number. destruct (0 <? value); [|done].
  by rewrite lookup_insert_ne.
Qed.

Lemma set_date_lookup_ne key value m k :
  key ≠ k → set_date strftime key value m !! k = m !! k.
Proof.
  intros H. destruct value; simpl; [|done]. by rewrite lookup_insert_ne.
Qed.

Lemma set_text_kept key value m :
  map_Forall (λ k v, kept (k, v)) m →
  map_Forall (λ k v, kept (k, v)) (set_text key value m).
Proof.
  intros H. unfold set_text. destruct (String.eqb value "") eqn:E; [done|].
  apply String.eqb_neq in E. apply map_Forall_insert_2; [|done].
  split; simpl; congruence.
Qed.

Lemma set_number_kept key value m :
  map_Forall (λ k v, kept (k, v)) m →
  map_Forall (λ k v, kept (k, v)) (set_number key value m).
Proof.
  intros H. unfold set_number. destruct (0 <? value); [|done].
  apply map_Forall_insert_2; [|done]. by split.
Qed.

Lemma set_date_kept key value m :
  (∀ d, strftime d ≠ "") →
  map_Forall (λ k v, kept (k, v)) m →
  map_Forall (λ k v, kept (k, v)) (set_date strftime key value m).
Proof.
  intros Hs H. destruct value as [d|]; simpl; [|done].
  apply map_Forall_insert_2; [|done].
  split; simpl; [done|]. intros [= ?]. by eapply Hs.
Qed.

Lemma form_parameters_other_keys w k :
  k ∉ ["numeroOab"; "ufOab"; "nomeAdvogado"; "nomeParte"; "numeroProcesso";
       "numeroComunicacao"; "siglaTribunal"; "orgaoId";
       "dataDisponibilizacaoInicio"; "dataDisponibilizacaoFim"] →
  form_parameters strftime w !! k = None.
Proof.
  intros H. unfold form_parameters.
  rewrite !set_date_lookup_ne, !set_number_lookup_ne, !set_text_lookup_ne,
    !set_number_lookup_ne, !set_text_lookup_ne by set_solver.
  done.
Qed.
End form.

(** X22. The form returns no rule exactly when nothing was entered: every
    text is empty, both numbers are 0 (or less), and neither date is set. *)
Theorem create_rule_form_none_iff {date : Type} (strftime : date → string)
    (w : form_values date) :
  create_rule_form strftime w = None
  ↔ numero_oab w = "" ∧ uf_oab w = "" ∧ nome_advogado w = ""
    ∧ nome_parte w = "" ∧ numero_processo w = ""
    ∧ numero_comunicacao w ≤ 0 ∧ sigla_tribunal w = "" ∧ orgao_id w ≤ 0
    ∧ data_inicio w = None ∧ data_fim w = None.
Proof.
  unfold create_rule_form.
  destruct (decide (form_parameters strftime w = ∅)) as [He|Hne].
  - split; [intros _|done]. revert He. unfold form_parameters.
    rewrite !set_date_empty, !set_number_empty, !set_text_empty,
      !set_number_empty, !set_text_empty. naive_solver.
  - split; [done|]. intros H. exfalso. apply Hne. unfold form_parameters.
    rewrite !set_date_empty, !set_number_empty, !set_text_empty,
      !set_number_empty, !set_text_empty. naive_solver.
Qed.

(** X23. A rule the form returns has the name, the type and the enabled flag
    entered, the operator entered when it is an Include rule and Or when it
    is an Exclude rule, and, as long as a date never prints as the empty
    string, exactly the parameters the form assembled: the constructor has
    nothing to drop. *)
Theorem create_rule_form_rule {date : Type} (strftime : date → string)
    (w : form_values date) (rule : SearchRule) :
  (∀ d, strftime d ≠ "") →
  create_rule_form strftime w = Some rule →
  name rule = rule_name w
  ∧ rule_type rule = form_rule_type w
  ∧ enabled rule = rule_enabled w
  ∧ operator rule =
      (if decide (form_rule_type w = EXCLUDE) then OR else rule_operator w)
  ∧ parameters rule = form_parameters strftime w.
Proof.
  intros Hs. unfold create_rule_form.
  destruct (decide (form_parameters strftime w = ∅)); [done|].
  intros [= <-]. simpl. split_and!; try done.
  - by destruct (form_rule_type w).
  - apply map_filter_id. intros k v Hkv.
    assert (map_Forall (λ k v, kept (k, v)) (form_parameters strftime w)) as H.
    { unfold form_parameters.
      repeat first [apply set_date_kept; [done|]
                   |apply set_number_kept|apply set_text_kept].
      apply map_Forall_empty. }
    exact (H k v Hkv).
Qed.

Lemma create_rule_form_rule_witness :
  (∀ d, sample_strftime d ≠ "")
  ∧ create_rule_form sample_strftime sample_form
    = Some (SearchRule_init "Regra 1" EXCLUDE OR true
              (form_parameters sample_strftime sample_form))
  ∧ operator (SearchRule_init "Regra 1" EXCLUDE OR true
                (form_parameters sample_strftime sample_form))
    = (if decide (form_rule_type sample_form = EXCLUDE) then OR
       else rule_operator sample_form)
  ∧ parameters (SearchRule_init "Regra 1" EXCLUDE OR true
                  (form_parameters sample_strftime sample_form))
    = form_parameters sample_strftime sample_form.
Proof.
  assert (∀ d, sample_strftime d ≠ "") as Hs.
  { intros d. unfold sample_strftime.
    destruct (pretty d.1.1) as [|c s]; simpl; discriminate. }
  assert (create_rule_form sample_strftime sample_form
          = Some (SearchRule_init "Regra 1" EXCLUDE OR true
                    (form_parameters sample_strftime sample_form))) as Hf
    by by_evaluation.
  split; [exact Hs|]. split; [exact Hf|].
  destruct (create_rule_form_rule sample_strftime sample_form _ Hs Hf)
    as (_ & _ & _ & Ho & Hp).
  split; [exact Ho|exact Hp].
Defined.

(** X24. Every parameter of a rule the form returns reaches the HTTP query
    with its value: none of them is called [_rule_name], [itensPorPagina] or
    [pagina], the entries the engine writes over. *)
Theorem create_rule_form_parameters_sent {date : Type}
    (strftime : date → string) (w : form_values date) (rule : SearchRule)
    (k : string) (v : pyval) (n : Z) :
  create_rule_form strftime w = Some rule →
  parameters rule !! k = Some v →
  (<["pagina" := PyInt n]>
     (<["itensPorPagina" := PyInt 50]>
        (<["_rule_name" := PyStr (name rule)]> (parameters rule)))) !! k
    = Some v.
Proof.
  unfold create_rule_form.
  destruct (decide (form_parameters strftime w = ∅)); [done|].
  intros [= <-]. simpl. intros Hk.
  pose proof Hk as [Hw _]%map_lookup_filter_Some.
  assert (k ≠ "pagina" ∧ k ≠ "itensPorPagina" ∧ k ≠ "_rule_name")
    as (H1 & H2 & H3).
  { split_and!; intros ->;
      rewrite form_parameters_other_keys in Hw by set_solver; done. }
  by rewrite !lookup_insert_ne.
Qed.

Lemma create_rule_form_parameters_sent_witness :
  create_rule_form sample_strftime sample_form
    = Some (SearchRule_init "Regra 1" EXCLUDE OR true
              (form_parameters sample_strftime sample_form))
  ∧ parameters (SearchRule_init "Regra 1" EXCLUDE OR true
                  (form_parameters sample_strftime sample_form)) !! "ufOab"
    = Some (PyStr "ES")
  ∧ (<["pagina" := PyInt 3]>
       (<["itensPorPagina" := PyInt 50]>
          (<["_rule_name" :=
               PyStr (name (SearchRule_init "Regra 1" EXCLUDE OR true
                              (form_parameters sample_strftime sample_form)))]>
             (parameters
                (SearchRule_init "Regra 1" EXCLUDE OR true
                   (form_parameters sample_strftime sample_form))))))
      !! "ufOab" = Some (PyStr "ES").
Proof.
  assert (create_rule_form sample_strftime sample_form
          = Some (SearchRule_init "Regra 1" EXCLUDE OR true
                    (form_parameters sample_strftime sample_form))) as Hf
    by by_evaluation.
  assert (parameters (SearchRule_init "Regra 1" EXCLUDE OR true
                        (form_parameters sample_strftime sample_form))
            !! "ufOab" = Some (PyStr "ES")) as Hk by by_evaluation.
  split; [exact Hf|]. split; [exact Hk|].
  exact (create_rule_form_parameters_sent sample_strftime sample_form _
           "ufOab" (PyStr "ES") 3 Hf Hk).
Defined.

(** ** The result filters and the pages *)

Section results.
Implicit Types (pub : item) (l : list item).

Lemma py_eqb_true a b : py_eqb a b = true ↔ py_norm a = py_norm b.
Proof. unfold py_eqb. apply bool_decide_eq_true. Qed.

Lemma py_norm_idemp (v : pyval) : py_norm (py_norm v) = py_norm v.
Proof. by destruct v. Qed.

Lemma elem_of_filter_values field l (v : pyval) :
  v ∈ filter_values field l
  ↔ ∃ pub, pub ∈ l ∧ v = py_norm (get pub field (PyStr "N/A")).
Proof.
  unfold filter_values, pyset_of. rewrite elem_of_list_to_set.
  rewrite <- list_fmap_compose, list_elem_of_fmap. naive_solver.
Qed.

Lemma sorted_Some (s : pyset) (values : list pyval) :
  sorted s = Some values → ∀ v, v ∈ values ↔ v ∈ s.
Proof.
  unfold sorted. destruct (sortable _); [|done]. intros [= <-] v.
  by rewrite merge_sort_Permutation, elem_of_elements.
Qed.

Lemma sortable_None (values : list pyval) (v : pyval) :
  PyNone ∈ values → v ∈ values → v ≠ PyNone → sortable values = false.
Proof.
  intros Hnone Hv Hne.
  assert (forallb is_number values = false) as Hnum.
  { apply not_true_is_false. intros H. apply Is_true_true_2, forallb_True in H.
    rewrite Forall_forall in H. by apply H in Hnone. }
  assert (forallb is_text values = false) as Htxt.
  { apply not_true_is_false. intros H. apply Is_true_true_2, forallb_True in H.
    rewrite Forall_forall in H. by apply H in Hnone. }
  destruct values as [|a [|b values]].
  - by apply elem_of_nil in Hnone.
  - apply list_elem_of_singleton in Hnone, Hv. congruence.
  - unfold sortable. by rewrite Hnum, Htxt.
Qed.

Lemma sorted_None (s : pyset) (v : pyval) :
  PyNone ∈ s → v ∈ s → v ≠ PyNone → sorted s = None.
Proof.
  intros Hnone Hv Hne. unfold sorted.
  by rewrite (sortable_None (elements s) v) by (by rewrite ?elem_of_elements).
Qed.

Lemma slice_lookup {A : Type} (l : list A) (a b i : nat) :
  slice a (a + b) l !! i = if decide (i < b)%nat then l !! (a + i)%nat else None.
Proof.
  unfold slice. replace (a + b - a)%nat with b by lia.
  destruct (decide (i < b)%nat).
  - rewrite lookup_take_lt by done. apply lookup_drop.
  - apply lookup_take_ge. lia.
Qed.
End results.

(** X25. When the select box of a filter is built, it offers "N/A" for
    the publications that lack the field; but the filter compares with the
    field itself, so choosing "N/A" shows none of the publications it
    stands for.  And the select box is not built at all when, beside a
    publication that lacks the field, another has it [null]: [sorted] then
    raises [TypeError]. *)
Theorem filter_na_hides_missing (field : string) (publications : list item)
    (pub : item) :
  pub ∈ publications →
  pub !! field = None →
  (∀ options, filter_options field publications = Some options →
              PyStr "N/A" ∈ options)
  ∧ (pub ∉ filter_by field (PyStr "N/A") publications)
  ∧ (∀ pub', pub' ∈ publications → pub' !! field = Some PyNone →
             filter_options field publications = None).
Proof.
  intros Hin Hnone.
  assert (PyStr "N/A" ∈ filter_values field publications) as Hna.
  { apply elem_of_filter_values. exists pub. split; [done|].
    unfold get. by rewrite Hnone. }
  split_and!.
  - intros options Hsome. by apply (sorted_Some _ _ Hsome).
  - unfold filter_by. simpl.
    intros [Heq _]%list_elem_of_filter. unfold get in Heq.
    by rewrite Hnone in Heq.
  - intros pub' Hin' Hnull. apply (sorted_None _ (PyStr "N/A")); [|done..].
    apply elem_of_filter_values. exists pub'. split; [done|].
    unfold get. by rewrite Hnull.
Qed.

Lemma filter_na_hides_missing_witness :
  let tjes : item := {[ "hash" := PyStr "t"; "siglaTribunal" := PyStr "TJES" ]} in
  let null : item := {[ "hash" := PyStr "n"; "siglaTribunal" := PyNone ]} in
  pub_1x ∈ [tjes; pub_1x]
  ∧ pub_1x !! "siglaTribunal" = None
  ∧ filter_options "siglaTribunal" [tjes; pub_1x]
    = Some [PyStr "N/A"; PyStr "TJES"]
  ∧ PyStr "N/A" ∈ [PyStr "N/A"; PyStr "TJES"]
  ∧ (pub_1x ∉ filter_by "siglaTribunal" (PyStr "N/A") [tjes; pub_1x])
  ∧ filter_options "siglaTribunal" [tjes; pub_1x; null] = None.
Proof.
  intros tjes null.
  assert (pub_1x ∈ [tjes; pub_1x]) as Hin by (right; left).
  assert (pub_1x ∈ [tjes; pub_1x; null]) as Hin' by (right; left).
  assert (pub_1x !! "siglaTribunal" = None) as Hnone by by_evaluation.
  assert (filter_options "siglaTribunal" [tjes; pub_1x]
          = Some [PyStr "N/A"; PyStr "TJES"]) as Hsome by by_evaluation.
  destruct (filter_na_hides_missing "siglaTribunal" [tjes; pub_1x] pub_1x
              Hin Hnone) as (Hoffered & Hhidden & _).
  destruct (filter_na_hides_missing "siglaTribunal" [tjes; pub_1x; null] pub_1x
              Hin' Hnone) as (_ & _ & Hraises).
  split; [exact Hin|]. split; [exact Hnone|]. split; [exact Hsome|].
  split; [exact (Hoffered _ Hsome)|]. split; [exact Hhidden|].
  apply (Hraises null); [right; right; left|by_evaluation].
Defined.

(** X26. Every other value a filter offers selects at least one
    publication: so does every value of a field other than "N/A", and the
    values offered are among them. *)
Theorem filter_option_selects_some (field : string)
    (publications : list item) (selected : pyval) :
  selected ≠ PyStr "N/A" →
  (selected ∈ filter_values field publications →
   filter_by field selected publications ≠ [])
  ∧ (∀ options, filter_options field publications = Some options →
                selected ∈ options →
                filter_by field selected publications ≠ []).
Proof.
  intros Hna.
  assert (selected ∈ filter_values field publications →
          filter_by field selected publications ≠ []) as Hvalues.
  { intros (pub & Hin & ->)%elem_of_filter_values.
    unfold filter_by.
    destruct (negb _); [|by intros ->; apply elem_of_nil in Hin].
    intros Hnil. apply (filter_nil_not_elem_of _ _ pub) in Hnil; [done|].
    apply py_eqb_true. rewrite py_norm_idemp. unfold get in *.
    destruct (pub !! field); [done|]. done. }
  split; [exact Hvalues|].
  intros options Hsome Hin. apply Hvalues. by apply (sorted_Some _ _ Hsome).
Qed.

Lemma filter_option_selects_some_witness :
  let tjes : item := {[ "hash" := PyStr "t"; "siglaTribunal" := PyStr "TJES" ]} in
  PyStr "TJES" ≠ PyStr "N/A"
  ∧ PyStr "TJES" ∈ filter_values "siglaTribunal" [pub_a; tjes]
  ∧ filter_options "siglaTribunal" [pub_a; tjes]
    = Some [PyStr "N/A"; PyStr "TJES"]
  ∧ PyStr "TJES" ∈ [PyStr "N/A"; PyStr "TJES"]
  ∧ filter_by "siglaTribunal" (PyStr "TJES") [pub_a; tjes] ≠ [].
Proof.
  intros tjes.
  assert (PyStr "TJES" ≠ PyStr "N/A") as Hna by discriminate.
  assert (PyStr "TJES" ∈ filter_values "siglaTribunal" [pub_a; tjes]) as Hin
    by by_evaluation.
  assert (filter_options "siglaTribunal" [pub_a; tjes]
          = Some [PyStr "N/A"; PyStr "TJES"]) as Hsome by by_evaluation.
  assert (PyStr "TJES" ∈ [PyStr "N/A"; PyStr "TJES"]) as Hin'
    by (right; left).
  split; [exact Hna|]. split; [exact Hin|]. split; [exact Hsome|].
  split; [exact Hin'|].
  exact (proj2 (filter_option_selects_some "siglaTribunal" [pub_a; tjes]
                  (PyStr "TJES") Hna) _ Hsome Hin').
Defined.

(** X27. The three filters can be applied in any order, and a filter set to
    "Todos" filters nothing. *)
Theorem filters_commute (field1 field2 : string) (selected1 selected2 : pyval)
    (publications : list item) :
  filter_by field1 selected1 (filter_by field2 selected2 publications)
    = filter_by field2 selected2 (filter_by field1 selected1 publications)
  ∧ filter_by field1 (PyStr "Todos") publications = publications.
Proof.
  split; [|done]. unfold filter_by.
  destruct (negb (py_eqb selected1 _)), (negb (py_eqb selected2 _)); try done.
  rewrite !list_filter_filter. apply list_filter_iff. naive_solver.
Qed.

(** X28. The item shown at place [i] of a page is the one at place
    [start_idx + i] of the filtered list, the number its card is given, and
    a page shows the places 0 to 9 only. *)
Theorem current_items_lookup {A : Type} (page : nat)
    (filtered_publications : list A) (i : nat) :
  current_items page filtered_publications !! i
    = if decide (i < items_per_page)%nat
      then filtered_publications !! (start_idx page + i)%nat
      else None.
Proof. unfold current_items. apply slice_lookup. Qed.

(** X29. The pages 1 to [k], one after the other, show the first [10 * k]
    items of the filtered list in order, each once: all of it as soon as
    [10 * k] reaches its length. *)
Theorem pages_cover {A : Type} (k : nat) (filtered_publications : list A) :
  concat ((λ page, current_items page filtered_publications) <$> seq 1 k)
    = take (k * items_per_page) filtered_publications
  ∧ ((length filtered_publications ≤ k * items_per_page)%nat →
     concat ((λ page, current_items page filtered_publications) <$> seq 1 k)
       = filtered_publications).
Proof.
  assert (concat ((λ page, current_items page filtered_publications)
                    <$> seq 1 k)
          = take (k * items_per_page) filtered_publications) as H.
  { induction k as [|k IH]; [done|].
    rewrite seq_S, fmap_app, concat_app, IH. simpl. rewrite app_nil_r.
    unfold current_items, slice, start_idx.
    replace (S k - 1)%nat with k by lia.
    replace (k * items_per_page + items_per_page - k * items_per_page)%nat
      with items_per_page by lia.
    rewrite take_take_drop. f_equal. unfold items_per_page. lia. }
  split; [exact H|]. intros Hlen. rewrite H. by apply take_ge.
Qed.

Lemma pages_cover_witness :
  (length [pub_a; pub_b; pub_c] ≤ 1 * items_per_page)%nat
  ∧ concat ((λ page, current_items page [pub_a; pub_b; pub_c]) <$> seq 1 1)
    = [pub_a; pub_b; pub_c].
Proof.
  assert (length [pub_a; pub_b; pub_c] ≤ 1 * items_per_page)%nat as Hlen
    by (unfold items_per_page; simpl; lia).
  split; [exact Hlen|].
  exact (proj2 (pages_cover 1 [pub_a; pub_b; pub_c]) Hlen).
Defined.

(** ** Pages whose elements are no objects *)

(** X30. [search_with_params] never looks at the elements of a page, and
    [execute_rules] calls [pub.get] on the elements it has accumulated
    outside of any [try:].  So when [execute_rules] returns, every element
    of every page that its searches read was an object; and when the loop
    over the rules ends with an element in its accumulators that is none,
    [execute_rules] raises [AttributeError] instead of returning. *)
Theorem execute_rules_needs_objects (rules : list SearchRule)
    (progress_callback : bool) (script : list Raw.reply) :
  (∀ (log : list event) (final : list Raw.pyobj) (rest : list Raw.reply),
     Raw.execute_rules rules progress_callback script
       = (log, Raw.Returned final rest) →
     ∃ consumed,
       script = consumed ++ rest
       ∧ Forall (λ r, objects (raw_fetched r)) consumed
       ∧ objects final)
  ∧ (∀ (log : list event) (include exclude : list Raw.pyobj)
       (rest : list Raw.reply),
       Raw.rules_loop progress_callback rules ([], []) script
         = (log, Raw.Returned (include, exclude) rest) →
       ¬ objects (include ++ exclude) →
       (Raw.execute_rules rules progress_callback script).2
         = Raw.Raised Raw.AttributeError).
Proof.
  split.
  - intros log final rest. unfold Raw.execute_rules.
    unfold mbind at 1, Raw.io_bind at 1.
    destruct (Raw.rules_loop progress_callback rules ([], []) script)
      as [log1 [[include exclude] rest1| |e]] eqn:Hloop; [|done..].
    unfold mbind, Raw.io_bind, Raw.emit, Raw.raise, mret, Raw.io_ret.
    destruct (Raw.dicts include) as [include_dicts|] eqn:Hinc; [|done].
    assert (objects include) as Hobjinc by (unfold objects; by rewrite Hinc).
    destruct exclude as [|o exclude].
    + intros [= _ <- <-].
      destruct (raw_rules_loop_objects _ _ _ _ _ _ _ Hloop)
        as (_ & consumed & -> & Hconsumed).
      { cbn [fst snd]. by rewrite app_nil_r. }
      exists consumed. split_and!; [done..|apply objects_fmap].
    + destruct (Raw.dicts (o :: exclude)) as [exclude_dicts|] eqn:Hexc;
        [|done].
      intros [= _ <- <-].
      destruct (raw_rules_loop_objects _ _ _ _ _ _ _ Hloop)
        as (_ & consumed & -> & Hconsumed).
      { cbn [fst snd]. apply objects_app. split; [done|].
        unfold objects. by rewrite Hexc. }
      exists consumed. split_and!; [done..|apply objects_fmap].
  - intros log include exclude rest Hloop Hobj.
    unfold Raw.execute_rules. unfold mbind at 1, Raw.io_bind at 1.
    rewrite Hloop.
    unfold mbind, Raw.io_bind, Raw.emit, Raw.raise, mret, Raw.io_ret.
    destruct (Raw.dicts include) as [include_dicts|] eqn:Hinc; [|done].
    destruct exclude as [|o exclude].
    + destruct Hobj. rewrite app_nil_r. unfold objects. by rewrite Hinc.
    + destruct (Raw.dicts (o :: exclude)) as [exclude_dicts|] eqn:Hexc;
        [|done].
      destruct Hobj. apply objects_app. unfold objects.
      by rewrite Hinc, Hexc.
Qed.

Lemma execute_rules_needs_objects_witness :
  let script := raw_reply <$> script_include_exclude in
  let script' := [page_with_a_string; Raw.Response 200 (Raw.JsonObject None)] in
  (∃ log,
     Raw.execute_rules [rule_or; rule_exclude] false script
       = (log, Raw.Returned (Raw.Obj <$> [pub_a; pub_c]) []))
  ∧ (∃ consumed,
       script = consumed ++ []
       ∧ Forall (λ r, objects (raw_fetched r)) consumed
       ∧ objects (Raw.Obj <$> [pub_a; pub_c]))
  ∧ (Raw.search_with_params (rule_params rule_or) false script').2
    = Raw.Returned [Raw.Obj pub_a; Raw.NotObj (PyStr "b")] []
  ∧ errors_of (Raw.search_with_params (rule_params rule_or) false script').1
    = []
  ∧ ¬ objects ([Raw.Obj pub_a; Raw.NotObj (PyStr "b")] ++ [])
  ∧ (Raw.execute_rules [rule_or] false script').2
    = Raw.Raised Raw.AttributeError.
Proof.
  intros script script'.
  assert (Raw.execute_rules [rule_or; rule_exclude] false script
          = ((Raw.execute_rules [rule_or; rule_exclude] false script).1,
             Raw.Returned (Raw.Obj <$> [pub_a; pub_c]) [])) as Hrun
    by by_evaluation.
  assert (Raw.rules_loop false [rule_or] ([], []) script'
          = ((Raw.rules_loop false [rule_or] ([], []) script').1,
             Raw.Returned ([Raw.Obj pub_a; Raw.NotObj (PyStr "b")], []) []))
    as Hloop by by_evaluation.
  assert (¬ objects ([Raw.Obj pub_a; Raw.NotObj (PyStr "b")] ++ []))
    as Hobj by (by intros [? ?]).
  split; [by eexists|].
  split; [exact (proj1 (execute_rules_needs_objects _ _ _) _ _ _ Hrun)|].
  split; [by_evaluation|]. split; [by_evaluation|]. split; [exact Hobj|].
  exact (proj2 (execute_rules_needs_objects _ _ _) _ _ _ _ Hloop Hobj).
Defined.
